(** * Programmatic bar-chart extraction (utils/chartProcessor)

    A shallow embedding of the chart processor of the bill analyser: the
    word classifiers, the geometric candidate finder, the y-axis
    calibration, the pixel scan and the orchestrating [processChart].

    Conventions of the embedding.
    - A JavaScript string is the list of its UTF-16 code units.
    - A JavaScript number is an exact rational, or one of the three
      special values [PosInf], [NegInf], [NaN]; zero carries no sign.
      The arithmetic of [Num] is exact.  The code computes in binary64,
      where every operation gives the exact result rounded to the
      nearest binary64 number: that is the arithmetic of [Double].  The
      finder, the guards, the errors and the shape of the results are
      stated over the exact arithmetic, which they do not depend on; what
      depends on the arithmetic, the calibration law and the pixel scan,
      is stated over binary64.
    - The coordinates of a bounding box are finite numbers, the pixel
      positions the OCR engine reports.
    - An object reference is the record of its fields together with an
      identity [oid]; [Array.prototype.includes] compares identities.
    - A promise is the [outcome] it settles with: a value, a raised
      error, or no settlement at all.
    - Calls of the logging callback are left out: they return nothing the
      functions use. *)

From Stdlib Require Import List Bool Arith ZArith NArith QArith Qround Qabs.
From Stdlib Require Import Qpower Permutation Sorted Lia Lqa String Ascii.
From Stdlib Require Qcanon.
Import ListNotations.

Set Implicit Arguments.

(* ------------------------------------------------------------------ *)
(** ** Strings *)

Module JsString.

(** A string value, as its UTF-16 code units. *)
Definition t := list N.

Definition of_ascii (s : string) : t :=
  map N_of_ascii (list_ascii_of_string s).

Definition eqb (a b : t) : bool :=
  if list_eq_dec N.eq_dec a b then true else false.

(** [String.prototype.startsWith]. *)
Fixpoint startsWith (s p : t) {struct p} : bool :=
  match p, s with
  | [], _ => true
  | _ :: _, [] => false
  | c :: p', d :: s' => N.eqb c d && startsWith s' p'
  end.

(** The lowercase form of one code unit.  The table is exact on Basic
    Latin and Latin-1 Supplement and on the five code points outside
    them whose lowercase form falls into these two blocks (U+0130,
    U+0178, U+1E9E, U+212A, U+212B).  Every other cased code point
    lowercases to code units above U+00FF; it is left as it is, which
    no function of this file can tell apart. *)
Definition lowerUnit (c : N) : list N :=
  (if (65 <=? c) && (c <=? 90) then [c + 32]
   else if (192 <=? c) && (c <=? 222) && negb (c =? 215) then [c + 32]
   else if c =? 304 then [105; 775]
   else if c =? 376 then [255]
   else if c =? 7838 then [223]
   else if c =? 8490 then [107]
   else if c =? 8491 then [229]
   else [c])%N.

(** [String.prototype.toLowerCase]. *)
Definition toLowerCase (s : t) : t := flat_map lowerUnit s.

Definition isLowerAZ (c : N) : bool := ((97 <=? c) && (c <=? 122))%N.
Definition isDigit (c : N) : bool := ((48 <=? c) && (c <=? 57))%N.

(** [s.replace(/[^a-z]/g, '')]. *)
Definition removeNonLowerAZ (s : t) : t := filter isLowerAZ s.

(** [s.replace(/,/g, '')]. *)
Definition removeCommas (s : t) : t := filter (fun c => negb (c =? 44)%N) s.

(** White space and line terminators skipped by [parseInt] and
    [parseFloat]. *)
Definition isStrWhiteSpace (c : N) : bool :=
  ((9 <=? c) && (c <=? 13) || (c =? 32) || (c =? 160) || (c =? 5760)
   || (8192 <=? c) && (c <=? 8202) || (c =? 8232) || (c =? 8233)
   || (c =? 8239) || (c =? 8287) || (c =? 12288) || (c =? 65279))%N.

Fixpoint skipWhiteSpace (s : t) : t :=
  match s with
  | c :: s' => if isStrWhiteSpace c then skipWhiteSpace s' else s
  | [] => []
  end.

(** The digits a string starts with, most significant first. *)
Fixpoint leadingDigits (s : t) : list N :=
  match s with
  | c :: s' => if isDigit c then (c - 48)%N :: leadingDigits s' else []
  | [] => []
  end.

Definition digitsValue (ds : list N) : Z :=
  fold_left (fun acc d => 10 * acc + Z.of_N d)%Z ds 0%Z.

(** [parseInt(s, 10)]; [None] is NaN. *)
Definition parseInt (s : t) : option Z :=
  let s1 := skipWhiteSpace s in
  let '(neg, s2) :=
    match s1 with
    | 45%N :: r => (true, r)
    | 43%N :: r => (false, r)
    | _ => (false, s1)
    end in
  match leadingDigits s2 with
  | [] => None
  | ds => Some (if neg then - digitsValue ds else digitsValue ds)%Z
  end.

(** [isNaN(parseFloat(s))]: [parseFloat] yields a number exactly when,
    after white space and an optional sign, the text starts with
    [Infinity], with a digit, or with a dot followed by a digit. *)
Definition parseFloatIsNaN (s : t) : bool :=
  let s1 := skipWhiteSpace s in
  let s2 :=
    match s1 with
    | 45%N :: r => r
    | 43%N :: r => r
    | _ => s1
    end in
  negb (startsWith s2 (of_ascii "Infinity")
        || match s2 with
           | c :: r =>
               isDigit c
               || (c =? 46)%N && match r with d :: _ => isDigit d | [] => false end
           | [] => false
           end).

(** Decimal rendering of a natural number, as template literals do. *)
Fixpoint ofNatAux (fuel n : nat) (acc : t) : t :=
  match fuel with
  | O => acc
  | S fuel' =>
      let acc' := (48 + N.of_nat (n mod 10))%N :: acc in
      if (n / 10 =? 0)%nat then acc' else ofNatAux fuel' (n / 10) acc'
  end.

Definition ofNat (n : nat) : t := ofNatAux (S n) n [].

End JsString.

(* ------------------------------------------------------------------ *)
(** ** Words and their classification *)

Record BBox : Type := mkBBox { x0 : Q; y0 : Q; x1 : Q; y1 : Q }.

Record OcrWord : Type := mkWord {
  oid : nat;
  text : JsString.t;
  bbox : BBox;
  confidence : Q
}.

Definition MONTHS : list JsString.t :=
  map JsString.of_ascii
    ["jan"; "feb"; "mar"; "apr"; "may"; "jun";
     "jul"; "aug"; "sep"; "oct"; "nov"; "dec"]%string.

(** The alphabetic-only lowercase form of a text. *)
Definition cleanText (s : JsString.t) : JsString.t :=
  JsString.removeNonLowerAZ (JsString.toLowerCase s).

Definition isMonth (word : OcrWord) : bool :=
  existsb (fun m => JsString.startsWith m (cleanText (text word))) MONTHS.

Definition isNumber (word : OcrWord) : bool :=
  negb (JsString.parseFloatIsNaN (JsString.removeCommas (text word))).

Definition isYear (word : OcrWord) : bool :=
  (List.length (text word) =? 4)%nat && forallb JsString.isDigit (text word).

(** The unit vocabulary, code unit by code unit as the source file spells
    it: the second entry is [m], U+00C2, U+00B3. *)
Definition UNITS : list JsString.t :=
  [ JsString.of_ascii "kwh"; [109; 194; 179]%N; JsString.of_ascii "therms" ].

Definition isUnit (word : OcrWord) : bool :=
  existsb (JsString.eqb (JsString.toLowerCase (text word))) UNITS.


(* ------------------------------------------------------------------ *)
(** ** Numbers *)

Definition Qltb (a b : Q) : bool := negb (Qle_bool b a).

(** A number value: exact rationals and the three special values. *)
Inductive number : Type :=
| Fin (q : Q)
| PosInf
| NegInf
| NaN.

Module Num.

Definition ofZ (z : Z) : number := Fin (inject_Z z).

(** The infinity a nonzero finite factor turns [PosInf] into; a zero
    factor gives NaN. *)
Definition scaleInf (q : Q) : number :=
  match q ?= 0 with
  | Eq => NaN
  | Gt => PosInf
  | Lt => NegInf
  end.

Definition neg (a : number) : number :=
  match a with
  | Fin q => Fin (Qred (- q))
  | PosInf => NegInf
  | NegInf => PosInf
  | NaN => NaN
  end.

Definition add (a b : number) : number :=
  match a, b with
  | NaN, _ | _, NaN => NaN
  | Fin p, Fin q => Fin (Qred (p + q))
  | PosInf, NegInf | NegInf, PosInf => NaN
  | PosInf, _ | _, PosInf => PosInf
  | NegInf, _ | _, NegInf => NegInf
  end.

Definition sub (a b : number) : number := add a (neg b).

Definition mul (a b : number) : number :=
  match a, b with
  | NaN, _ | _, NaN => NaN
  | Fin p, Fin q => Fin (Qred (p * q))
  | Fin p, PosInf | PosInf, Fin p => scaleInf p
  | Fin p, NegInf | NegInf, Fin p => neg (scaleInf p)
  | PosInf, PosInf | NegInf, NegInf => PosInf
  | PosInf, NegInf | NegInf, PosInf => NegInf
  end.

(** Division; a zero divisor counts as positive zero. *)
Definition div (a b : number) : number :=
  match a, b with
  | NaN, _ | _, NaN => NaN
  | Fin p, Fin q => if Qeq_bool q 0 then scaleInf p else Fin (Qred (p / q))
  | Fin _, (PosInf | NegInf) => Fin 0
  | (PosInf | NegInf), (PosInf | NegInf) => NaN
  | PosInf, Fin q => if Qltb q 0 then NegInf else PosInf
  | NegInf, Fin q => if Qltb q 0 then PosInf else NegInf
  end.

(** [a > b]. *)
Definition gtb (a b : number) : bool :=
  match a, b with
  | NaN, _ | _, NaN => false
  | Fin p, Fin q => Qltb q p
  | PosInf, (Fin _ | NegInf) => true
  | Fin _, NegInf => true
  | _, _ => false
  end.

(** [Math.floor]. *)
Definition floor (a : number) : number :=
  match a with
  | Fin q => ofZ (Qfloor q)
  | _ => a
  end.

(** [Math.round]: the nearest integer, halves upwards. *)
Definition round (a : number) : number :=
  match a with
  | Fin q => ofZ (Qfloor (q + (1 # 2)))
  | _ => a
  end.

(** Two number values denote the same number. *)
Definition same (a b : number) : Prop :=
  match a, b with
  | Fin p, Fin q => p == q
  | PosInf, PosInf | NegInf, NegInf | NaN, NaN => True
  | _, _ => False
  end.


End Num.

(** Binary64, the number format of the code. *)
Module Double.

(** The binade of a positive rational: the greatest [k] with
    [2 ^ k <= a]. *)
Definition binade (a : Q) : Z :=
  let k := (Z.log2 (Qnum a) - Z.log2 (Zpos (Qden a)))%Z in
  if Qle_bool (2 ^ k) a then k else (k - 1)%Z.

(** The nearest integer, a half going to the even one. *)
Definition nearestEven (x : Q) : Z :=
  let m := Qfloor x in
  match Qcompare (x - inject_Z m) (1 # 2) with
  | Lt => m
  | Gt => (m + 1)%Z
  | Eq => if Z.even m then m else (m + 1)%Z
  end.

(** The binary64 number nearest to a rational: a significand of 53 bits
    at the exponent of the binade, of 52 bits or fewer below [2 ^ -1022],
    and an infinity from [2 ^ 1024 - 2 ^ 970] on. *)
Definition round (q : Q) : number :=
  let r := Qred q in
  if Qeq_bool r 0 then Fin 0
  else
    let a := Qabs r in
    let e := Z.max (binade a - 52) (-1074) in
    let m := nearestEven (a / 2 ^ e) in
    if ((971 <? e) || ((e =? 971) && (2 ^ 53 <=? m)))%Z
    then (if Qltb r 0 then NegInf else PosInf)
    else Fin (Qred ((if Qltb r 0 then -1 else 1) * (inject_Z m * 2 ^ e))).

(** The result of an operation of the code: the exact result, rounded. *)
Definition lift (a : number) : number :=
  match a with
  | Fin q => round q
  | _ => a
  end.

Definition add (a b : number) : number := lift (Num.add a b).
Definition sub (a b : number) : number := lift (Num.sub a b).
Definition mul (a b : number) : number := lift (Num.mul a b).
Definition div (a b : number) : number := lift (Num.div a b).

(** [Math.abs]. *)
Definition abs (a : number) : number :=
  match a with
  | Fin q => Fin (Qabs q)
  | NegInf => PosInf
  | _ => a
  end.

(** The number of an integer. *)
Definition ofZ (z : Z) : number := round (inject_Z z).

(** A rational that is a binary64 number: rounding leaves it as it is. *)
Definition exact (q : Q) : Prop := Num.same (round q) (Fin q).

End Double.

(* ------------------------------------------------------------------ *)
(** ** Geometry *)

Record Point : Type := mkPoint { px : Q; py : Q }.

Definition getCenter (b : BBox) : Point :=
  mkPoint (Qred ((x0 b + x1 b) / 2)) (Qred ((y0 b + y1 b) / 2)).

Definition isHorizontallyAligned (word1 word2 : OcrWord) (tolerance : Q) : bool :=
  let y1 := py (getCenter (bbox word1)) in
  let y2 := py (getCenter (bbox word2)) in
  Qltb (Qabs (y1 - y2)) tolerance.

Definition isVerticallyAligned (word1 word2 : OcrWord) (tolerance : Q) : bool :=
  let x1 := px (getCenter (bbox word1)) in
  let x2 := px (getCenter (bbox word2)) in
  Qltb (Qabs (x1 - x2)) tolerance.

(** The square of [distance p1 p2]; the source compares the distance with
    a positive radius, which is the comparison of the squares. *)
Definition distanceSq (p1 p2 : Point) : Q :=
  (px p2 - px p1) * (px p2 - px p1) + (py p2 - py p1) * (py p2 - py p1).

Definition distanceLt (p1 p2 : Point) (r : Q) : bool :=
  Qltb (distanceSq p1 p2) (r * r).

(** [Array.prototype.sort] with a comparator: a stable sort; [a] goes
    after [b] when [cmp a b] is positive. *)
Section Sort.
Variable A : Type.
Variable cmp : A -> A -> Q.

Fixpoint insertSorted (x : A) (l : list A) : list A :=
  match l with
  | [] => [x]
  | y :: l' => if Qltb 0 (cmp x y) then y :: insertSorted x l' else x :: l
  end.

Definition sortBy (l : list A) : list A := fold_right insertSorted [] l.
End Sort.

(** [arr.includes(word)]: membership by object identity. *)
Definition includes (l : list OcrWord) (word : OcrWord) : bool :=
  existsb (fun v => (oid v =? oid word)%nat) l.

(* ------------------------------------------------------------------ *)
(** ** Chart candidates *)

Module Candidate.
Record t : Type := mk {
  id : nat;
  months : list OcrWord;
  yAxis : list OcrWord;
  legend : list OcrWord;
  title : list OcrWord;
  unit : option OcrWord;
  bounds : BBox
}.
End Candidate.

Definition byX0 (a b : OcrWord) : Q := x0 (bbox a) - x0 (bbox b).

Section FindChartCandidates.
Variable words : list OcrWord.

Definition potentialMonths : list OcrWord := sortBy byX0 (filter isMonth words).
Definition potentialYAxis : list OcrWord :=
  sortBy (fun a b => y0 (bbox b) - y0 (bbox a)) (filter isNumber words).
Definition potentialLegends : list OcrWord := filter isYear words.
Definition potentialUnits : list OcrWord := filter isUnit words.

(** The group of [potentialMonths[i]]: the word itself and the later
    words horizontally aligned with it. *)
Definition monthGroupOf (m : OcrWord) (later : list OcrWord) : list OcrWord :=
  m :: filter (fun mj => isHorizontallyAligned m mj 10) later.

(** The y-axis labels of a sorted month row. *)
Definition associatedYAxisOf (sortedMonths : list OcrWord) (first : OcrWord)
  : list OcrWord :=
  let minX := x0 (bbox (hd first sortedMonths)) in
  filter (fun y => isVerticallyAligned y (hd first sortedMonths) 30
                   && Qltb (x1 (bbox y)) minX)
         potentialYAxis.

(** One turn of the outer loop, at the word [m] followed by [later];
    the state is the candidate array and the [chartId] counter. *)
Definition visitMonth (m : OcrWord) (later : list OcrWord)
           (st : list Candidate.t * nat) : list Candidate.t * nat :=
  let '(candidates, chartId) := st in
  let monthGroup := monthGroupOf m later in
  if (3 <? List.length monthGroup)%nat
     && negb (existsb (fun c => includes (Candidate.months c) (hd m monthGroup))
                      candidates)
  then
    let sortedMonths := sortBy byX0 monthGroup in
    let avgY :=
      fold_left (fun sum mw => sum + py (getCenter (bbox mw))) sortedMonths 0
      / inject_Z (Z.of_nat (List.length sortedMonths)) in
    let maxX := x1 (bbox (last sortedMonths m)) in
    let associatedYAxis := associatedYAxisOf sortedMonths m in
    if (1 <? List.length associatedYAxis)%nat then
      let bounds :=
        mkBBox (x0 (bbox (hd m associatedYAxis)))
               (y0 (bbox (last associatedYAxis m)))
               maxX
               (Qred avgY) in
      let chartCenter :=
        mkPoint ((x0 bounds + x1 bounds) / 2) ((y0 bounds + y1 bounds) / 2) in
      let associatedLegend :=
        filter (fun l => distanceLt (getCenter (bbox l)) chartCenter 300)
               potentialLegends in
      let associatedUnit :=
        find (fun u => distanceLt (getCenter (bbox u))
                                  (mkPoint (x0 bounds) (py chartCenter)) 100)
             potentialUnits in
      (candidates ++
         [Candidate.mk chartId sortedMonths associatedYAxis
                       (sortBy byX0 associatedLegend) [] associatedUnit bounds],
       S chartId)
    else st
  else st.

Fixpoint clusterFrom (pending : list OcrWord) (st : list Candidate.t * nat)
  : list Candidate.t * nat :=
  match pending with
  | [] => st
  | m :: later => clusterFrom later (visitMonth m later st)
  end.

Definition findChartCandidates : list Candidate.t :=
  fst (clusterFrom potentialMonths ([], O)).
End FindChartCandidates.

(* ------------------------------------------------------------------ *)
(** ** Outcomes of asynchronous steps *)

Inductive error : Type :=
| CanvasContextError                      (* "Could not get canvas context." *)
| InsufficientYAxisLabels (chartId : nat) (* "Chart <id> has insufficient Y-axis labels." *)
| TypeError                               (* property read on undefined *)
| IndexSizeError                          (* getImageData of an empty canvas *)
| EngineError.                            (* raised by the OCR engine *)

(** What awaiting a promise gives: its value, the error it rejects with,
    or nothing when it never settles. *)
Inductive outcome (A : Type) : Type :=
| Returns (a : A)
| Throws (e : error)
| Pending.

Arguments Returns {A} a.
Arguments Throws {A} e.
Arguments Pending {A}.

Definition bind {A B : Type} (m : outcome A) (k : A -> outcome B) : outcome B :=
  match m with
  | Returns a => k a
  | Throws e => Throws e
  | Pending => Pending
  end.

Notation "x <- m ;; k" := (bind m (fun x => k))
  (at level 61, m at next level, right associativity).

Fixpoint mapM {A B : Type} (f : A -> outcome B) (l : list A) : outcome (list B) :=
  match l with
  | [] => Returns []
  | a :: l' => b <- f a ;; bs <- mapM f l' ;; Returns (b :: bs)
  end.

(* ------------------------------------------------------------------ *)
(** ** Axis calibration *)

Record YValue : Type := mkYValue { value : Z; y : Q }.

Record Calibration : Type := mkCalibration {
  yMin : YValue;
  yMax : YValue;
  pixelRange : Q;
  valueRange : Z;
  valuePerPixel : number;
  zeroLineY : number
}.

(** The parsed labels: each word's integer with the pixel row of its
    centre, unparsable words dropped, ascending by value. *)
Definition yValuesOf (yAxis : list OcrWord) : list YValue :=
  sortBy (fun a b => inject_Z (value a - value b))
    (flat_map
       (fun v =>
          match JsString.parseInt (JsString.removeCommas (text v)) with
          | Some n => [mkYValue n (py (getCenter (bbox v)))]
          | None => []
          end)
       yAxis).

(** The scale computed from the sorted labels; [None] when fewer than two
    of them are left. *)
Definition calibrate (yValues : list YValue) : option Calibration :=
  match yValues with
  | [] | [_] => None
  | lo :: _ :: _ =>
      let yMin := lo in
      let yMax := last yValues lo in
      let pixelRange := Qabs (y yMin - y yMax) in
      let valueRange := (value yMax - value yMin)%Z in
      let valuePerPixel := Num.div (Num.ofZ valueRange) (Fin pixelRange) in
      let zeroLineY :=
        if (value yMin =? 0)%Z then Fin (y yMin)
        else Num.add (Fin (y yMax))
               (Num.mul (Num.div (Num.ofZ (value yMax)) (Num.ofZ valueRange))
                        (Fin pixelRange)) in
      Some (mkCalibration yMin yMax pixelRange valueRange valuePerPixel zeroLineY)
  end.


(* ------------------------------------------------------------------ *)
(** ** Pixel scan *)

(** The decoded page: RGBA bytes, row by row. *)
Record Raster : Type := mkRaster { width : N; height : N; data : list N }.

(** [data[index]]: undefined outside the buffer. *)
Definition readByte (data : list N) (index : Z) : option N :=
  if (index <? 0)%Z then None else nth_error data (Z.to_nat index).

(** [channel < 240], false on undefined. *)
Definition below240 (channel : option N) : bool :=
  match channel with
  | Some v => (v <? 240)%N
  | None => false
  end.

Definition isDarkPixel (data : list N) (index : Z) : bool :=
  below240 (readByte data index)
  && below240 (readByte data (index + 1))
  && below240 (readByte data (index + 2)).

Definition pixelIndex (img : Raster) (row scanX : Z) : Z :=
  ((row * Z.of_N (width img) + scanX) * 4)%Z.

(** The rows of the inner loop from [row] upwards while [row > top];
    [-1] when no row is dark. *)
Fixpoint scanRows (img : Raster) (scanX : Z) (top : Q) (rows : nat) (row : Z) : Z :=
  match rows with
  | O => (-1)%Z
  | S rows' =>
      if Qltb top (inject_Z row) then
        if isDarkPixel (data img) (pixelIndex img row scanX) then row
        else scanRows img scanX top rows' (row - 1)%Z
      else (-1)%Z
  end.

(** The inner loop [for (y = Math.floor(zeroLineY); y > top; y--)], giving
    [barTopY].  From an infinite start the row never decreases and reads
    undefined pixels for ever; from NaN or minus infinity the loop body
    does not run. *)
Definition scanColumn (img : Raster) (scanX : Z) (zeroLineY : number) (top : Q)
  : outcome Z :=
  match Num.floor zeroLineY with
  | Fin start =>
      Returns (scanRows img scanX top
                 (Z.to_nat (Qfloor start - Qfloor top)) (Qfloor start))
  | PosInf => Pending
  | NegInf | NaN => Returns (-1)%Z
  end.

Module Chart.
Record entry : Type := mkEntry { year : JsString.t; value : number }.
Record row : Type := mkRow { month : JsString.t; usage : list entry }.
Record t : Type := mk { title : JsString.t; unit : JsString.t; data : list row }.
End Chart.

(** [a || b] on strings: the empty string is falsy. *)
Definition orElse (a : option JsString.t) (b : JsString.t) : JsString.t :=
  match a with
  | Some (c :: s) => c :: s
  | _ => b
  end.

Fixpoint join (sep : JsString.t) (parts : list JsString.t) : JsString.t :=
  match parts with
  | [] => []
  | [p] => p
  | p :: rest => p ++ sep ++ join sep rest
  end.

(** What the decoding of the page image provides: the raster once the
    image has loaded ([None]: it never loads), and whether the canvas
    hands out a 2-D context. *)
Record Page : Type := mkPage { image : option Raster; context2d : bool }.

Section DetectBars.
Variable img : Raster.
Variable cal : Calibration.
Variable years : list JsString.t.

Definition numYears : nat := Nat.max 1 (List.length years).

Definition scanXOf (month : OcrWord) (i : nat) : Z :=
  let barWidthGuess :=
    (x1 (bbox month) - x0 (bbox month)) / inject_Z (Z.of_nat numYears) in
  Qfloor (x0 (bbox month) + inject_Z (Z.of_nat i) * barWidthGuess
          + barWidthGuess / 2 + (1 # 2)).

(** One slot: the bar of series [i] over [month]. *)
Definition scanSlot (month : OcrWord) (i : nat) : outcome Chart.entry :=
  barTopY <- scanColumn img (scanXOf month i) (zeroLineY cal) (y (yMax cal)) ;;
  let year :=
    orElse (nth_error years i)
           (JsString.of_ascii "Year " ++ JsString.ofNat (i + 1)) in
  if (barTopY =? -1)%Z then Returns (Chart.mkEntry year (Fin 0))
  else
    let pixelHeight := Num.sub (zeroLineY cal) (Num.ofZ barTopY) in
    Returns (Chart.mkEntry year (Num.round (Num.mul pixelHeight (valuePerPixel cal)))).

Definition scanMonth (month : OcrWord) : outcome Chart.row :=
  monthUsage <- mapM (scanSlot month) (seq 0 numYears) ;;
  Returns (Chart.mkRow (text month) monthUsage).
End DetectBars.

Definition detectBarsForChart (page : Page) (chart : Candidate.t) : outcome Chart.t :=
  match image page with
  | None => Pending
  | Some img =>
      if negb (context2d page) then Throws CanvasContextError
      else
        match calibrate (yValuesOf (Candidate.yAxis chart)) with
        | None => Throws (InsufficientYAxisLabels (Candidate.id chart))
        | Some cal =>
            match Candidate.months chart with
            | [] => Throws TypeError
            | _ :: _ =>
                if ((width img =? 0) || (height img =? 0))%N then Throws IndexSizeError
                else
                  let years := map text (Candidate.legend chart) in
                  usageData <- mapM (scanMonth img cal years) (Candidate.months chart) ;;
                  Returns
                    (Chart.mk
                       (orElse (Some (join [32%N] (map text (Candidate.title chart))))
                               (JsString.of_ascii "Usage Chart "
                                ++ JsString.ofNat (Candidate.id chart)))
                       (orElse (option_map text (Candidate.unit chart))
                               (JsString.of_ascii "Units"))
                       usageData)
            end
        end
  end.

(* ------------------------------------------------------------------ *)
(** ** The calibration and the scan in binary64 *)

(** What the scan uses of the calibration: the row of the greatest
    label, the scale and the zero line. *)
Record Scale : Type := mkScale { top : Q; perPixel : number; zeroLine : number }.

(** The calibration step on the sorted labels, every operation rounded
    as the code rounds it. *)
Definition calibrateDouble (yValues : list YValue) : option Scale :=
  match yValues with
  | [] | [_] => None
  | lo :: _ :: _ =>
      let yMin := lo in
      let yMax := last yValues lo in
      let pixelRange := Double.abs (Double.sub (Fin (y yMin)) (Fin (y yMax))) in
      let valueRange :=
        Double.sub (Double.ofZ (value yMax)) (Double.ofZ (value yMin)) in
      let valuePerPixel := Double.div valueRange pixelRange in
      let zeroLineY :=
        if (value yMin =? 0)%Z then Fin (y yMin)
        else Double.add (Fin (y yMax))
               (Double.mul (Double.div (Double.ofZ (value yMax)) valueRange)
                           pixelRange) in
      Some (mkScale (y yMax) valuePerPixel zeroLineY)
  end.


(** [data[index]] for a number: undefined unless the index is an integer
    within the buffer. *)
Definition readAt (data : list N) (index : number) : option N :=
  match index with
  | Fin q =>
      if (Zpos (Qden (Qred q)) =? 1)%Z then readByte data (Qnum (Qred q)) else None
  | _ => None
  end.

Definition isDarkPixelDouble (data : list N) (index : number) : bool :=
  below240 (readAt data index)
  && below240 (readAt data (Double.add index (Fin 1)))
  && below240 (readAt data (Double.add index (Fin 2))).

Definition pixelIndexDouble (img : Raster) (row : Z) (scanX : number) : number :=
  Double.mul
    (Double.add (Double.mul (Num.ofZ row) (Num.ofZ (Z.of_N (width img)))) scanX)
    (Fin 4).

(** [y--] on a row. *)
Definition decrement (row : Z) : Z :=
  match Double.sub (Num.ofZ row) (Fin 1) with
  | Fin q => Qfloor q
  | _ => row
  end.

(** The turns of the inner loop from [row] upwards while [row > top];
    [-1] when no row is dark.  Where the decrement leaves the row as it
    is, the loop never ends.  [rows] bounds the number of turns: every
    decrement that changes the row lowers it by one at least. *)
Fixpoint scanRowsDouble (img : Raster) (scanX : number) (top : Q) (rows : nat)
         (row : Z) : outcome Z :=
  if Qltb top (inject_Z row) then
    if isDarkPixelDouble (data img) (pixelIndexDouble img row scanX) then Returns row
    else
      match rows with
      | O => Pending
      | S rows' =>
          if (decrement row =? row)%Z then Pending
          else scanRowsDouble img scanX top rows' (decrement row)
      end
  else Returns (-1)%Z.

(** The inner loop [for (y = Math.floor(zeroLineY); y > top; y--)], giving
    [barTopY]. *)
Definition scanColumnDouble (img : Raster) (scanX zeroLineY : number) (top : Q)
  : outcome Z :=
  match Num.floor zeroLineY with
  | Fin start =>
      scanRowsDouble img scanX top
        (Z.to_nat (Qfloor start - Qfloor top)) (Qfloor start)
  | PosInf => Pending
  | NegInf | NaN => Returns (-1)%Z
  end.

Definition scanXOfDouble (years : list JsString.t) (month : OcrWord) (i : nat)
  : number :=
  let barWidthGuess :=
    Double.div (Double.sub (Fin (x1 (bbox month))) (Fin (x0 (bbox month))))
               (Num.ofZ (Z.of_nat (numYears years))) in
  Num.round
    (Double.add
       (Double.add (Fin (x0 (bbox month)))
                   (Double.mul (Num.ofZ (Z.of_nat i)) barWidthGuess))
       (Double.div barWidthGuess (Fin 2))).

(** One slot: the bar of series [i] over [month]. *)
Definition scanSlotDouble (img : Raster) (s : Scale) (years : list JsString.t)
           (month : OcrWord) (i : nat) : outcome Chart.entry :=
  barTopY <- scanColumnDouble img (scanXOfDouble years month i) (zeroLine s) (top s) ;;
  let year :=
    orElse (nth_error years i)
           (JsString.of_ascii "Year " ++ JsString.ofNat (i + 1)) in
  if (barTopY =? -1)%Z then Returns (Chart.mkEntry year (Fin 0))
  else
    let pixelHeight := Double.sub (zeroLine s) (Num.ofZ barTopY) in
    Returns (Chart.mkEntry year (Num.round (Double.mul pixelHeight (perPixel s)))).

Definition scanMonthDouble (img : Raster) (s : Scale) (years : list JsString.t)
           (month : OcrWord) : outcome Chart.row :=
  monthUsage <- mapM (scanSlotDouble img s years month) (seq 0 (numYears years)) ;;
  Returns (Chart.mkRow (text month) monthUsage).

(* ------------------------------------------------------------------ *)
(** ** The exported entry point *)

(** The page the engine recognises, with the levels the source walks:
    blocks, paragraphs, lines, words; each level may be missing. *)
Definition Line : Type := option (list OcrWord).
Definition Paragraph : Type := option (list Line).
Definition Block : Type := option (list Paragraph).
Definition Recognized : Type := option (list Block).

(** [x || []]. *)
Definition orEmpty {A : Type} (x : option (list A)) : list A :=
  match x with
  | Some l => l
  | None => []
  end.

Definition flattenWords (data : Recognized) : list OcrWord :=
  flat_map (fun b => flat_map (fun p => flat_map (fun l => orEmpty l) (orEmpty p))
                              (orEmpty b))
           (orEmpty data).

(** [words.map(w => ({ text, bbox, confidence }))]: a fresh object per
    word, its identity being its position. *)
Fixpoint freshWordsFrom (next : nat) (ws : list OcrWord) : list OcrWord :=
  match ws with
  | [] => []
  | v :: ws' => mkWord next (text v) (bbox v) (confidence v) :: freshWordsFrom (S next) ws'
  end.

(** The OCR engine, by what each of its three awaited calls settles with. *)
Record Engine : Type := mkEngine {
  createWorker : outcome unit;
  recognize : outcome Recognized;
  terminate : outcome unit
}.

(** Pass 3: each candidate measured inside its own [try]. *)
Fixpoint processCandidates (page : Page) (candidates : list Candidate.t)
         (processedCharts : list Chart.t) : outcome (list Chart.t) :=
  match candidates with
  | [] => Returns processedCharts
  | candidate :: rest =>
      match detectBarsForChart page candidate with
      | Returns chartData => processCandidates page rest (processedCharts ++ [chartData])
      | Throws _ => processCandidates page rest processedCharts
      | Pending => Pending
      end
  end.

(** The body of the outer [try]. *)
Definition processChartBody (eng : Engine) (page : Page) : outcome (list Chart.t) :=
  data <- recognize eng ;;
  let allWords := freshWordsFrom 0 (flattenWords data) in
  let candidates := findChartCandidates allWords in
  match candidates with
  | [] => Returns []
  | _ :: _ => processCandidates page candidates []
  end.

Definition processChart (eng : Engine) (page : Page) : outcome (list Chart.t) :=
  _ <- createWorker eng ;;
  let guarded :=
    match processChartBody eng page with
    | Throws _ => Returns []
    | settled => settled
    end in
  match guarded with
  | Pending => Pending
  | completion => _ <- terminate eng ;; completion
  end.

(* ------------------------------------------------------------------ *)
(** ** Sample inputs *)

Module Sample.

Definition word (i : nat) (s : string) (left top right bottom : Q) : OcrWord :=
  mkWord i (JsString.of_ascii s) (mkBBox left top right bottom) 90.

(** A word known by its text only. *)
Definition ofText (s : JsString.t) : OcrWord := mkWord 0 s (mkBBox 0 0 10 10) 90.

(** [m] followed by SUPERSCRIPT THREE. *)
Definition cubicMetre : JsString.t := [109; 179]%N.

(** The KELVIN SIGN, U+212A. *)
Definition kelvin : JsString.t := [8490]%N.

(** Axis labels [0] at row 300 and [500] at row 100. *)
Definition zeroAxis : list OcrWord :=
  [word 0 "0" 10 295 30 305; word 1 "500" 10 95 30 105].

(** Axis labels [100] at row 300 and [500] at row 100. *)
Definition floorAxis : list OcrWord :=
  [word 0 "100" 10 295 30 305; word 1 "500" 10 95 30 105].



(** The same label [0] read twice, at rows 300 and 100. *)
Definition repeatedAxis : list OcrWord :=
  [word 0 "0" 10 295 30 305; word 1 "0" 10 95 30 105].

(** A page with one chart: two axis labels left of a row of four
    months. *)
Definition oneChart : list OcrWord :=
  [word 0 "100" 85 295 99 305; word 1 "500" 85 95 99 105;
   word 2 "Jan" 100 320 120 330; word 3 "Feb" 140 320 160 330;
   word 4 "Mar" 170 320 190 330; word 5 "Apr" 200 320 220 330].

(** Two axis labels and five month words: [Jan] centred on row 0,
    [Feb] on row 18, and [Mar], [Apr], [May] on row 9, within the
    tolerance of both. *)
Definition overlappingRows : list OcrWord :=
  [word 0 "100" 85 295 99 305; word 1 "500" 85 95 99 105;
   word 2 "Jan" 100 (-5) 120 5; word 3 "Feb" 110 13 130 23;
   word 4 "Mar" 140 4 160 14; word 5 "Apr" 170 4 190 14;
   word 6 "May" 200 4 220 14].

(** Two axis labels and seven month words: [Jan] centred on row 325,
    [Feb] on row 333, [Mar] and [Apr] on row 317, within the tolerance of
    [Jan] only, and [May], [Jun], [Jul] on row 341, within the tolerance
    of [Feb] only. *)
Definition takenLeader : list OcrWord :=
  [word 0 "100" 85 295 99 305; word 1 "500" 85 95 99 105;
   word 2 "Jan" 100 320 120 330; word 3 "Feb" 110 328 130 338;
   word 4 "Mar" 140 312 160 322; word 5 "Apr" 170 312 190 322;
   word 6 "May" 200 336 220 346; word 7 "Jun" 230 336 250 346;
   word 8 "Jul" 260 336 280 346].

(** A decoded page of one white pixel, with a canvas context. *)
Definition blankPage : Page :=
  mkPage (Some (mkRaster 1 1 [255; 255; 255; 255]%N)) true.

Definition monthRow : list OcrWord :=
  [word 2 "Jan" 100 320 120 330; word 3 "Feb" 140 320 160 330;
   word 4 "Mar" 170 320 190 330; word 5 "Apr" 200 320 220 330].

(** A candidate whose two axis labels both read [0]. *)
Definition repeatedCandidate : Candidate.t :=
  Candidate.mk 0 monthRow repeatedAxis [] [] None (mkBBox 10 95 220 325).

(** A candidate whose two axis labels both read [100]. *)
Definition stuckCandidate : Candidate.t :=
  Candidate.mk 0 monthRow
               [word 0 "100" 10 295 30 305; word 1 "100" 10 95 30 105]
               [] [] None (mkBBox 10 95 220 325).

(** A candidate with one readable label, [500], next to the word
    [kWh]. *)
Definition oneLabelCandidate : Candidate.t :=
  Candidate.mk 7 monthRow
               [word 0 "500" 10 95 30 105; word 1 "kWh" 10 295 30 305]
               [] [] None (mkBBox 10 95 220 325).

(** A page with two charts, the second below and to the right of the
    first; the labels of the second, [.5] and [.8], are numbers to
    [parseFloat] and not to [parseInt]. *)
Definition twoCharts : list OcrWord :=
  oneChart ++
  [word 6 ".5" 585 695 599 705; word 7 ".8" 585 495 599 505;
   word 8 "Jan" 600 720 620 730; word 9 "Feb" 640 720 660 730;
   word 10 "Mar" 670 720 690 730; word 11 "Apr" 700 720 720 730].

(** An engine that recognises [ws] as one line of one paragraph of one
    block. *)
Definition engineReading (ws : list OcrWord) : Engine :=
  mkEngine (Returns tt) (Returns (Some [Some [Some [Some ws]]])) (Returns tt).

(** An engine whose worker cannot be created. *)
Definition engineUnavailable : Engine :=
  mkEngine (Throws EngineError) (Returns None) (Returns tt).

End Sample.

(** A code unit that is, in either case, one of the Latin letters a to z:
    its lowercase form contains one of them. *)
Definition isLatinLetter (c : N) : bool :=
  existsb JsString.isLowerAZ (JsString.lowerUnit c).

(** The charts one candidate contributes to the result: its chart when
    its measurement returns, none when it raises. *)
Definition measured (page : Page) (c : Candidate.t) : list Chart.t :=
  match detectBarsForChart page c with
  | Returns chartData => [chartData]
  | _ => []
  end.

(** The y-axis words whose text [parseInt] reads as a number. *)
Definition parsable (v : OcrWord) : bool :=
  match JsString.parseInt (JsString.removeCommas (text v)) with
  | Some _ => true
  | None => false
  end.

(** The label a slot gets: the legend text at its index, or [Year n]. *)
Definition yearLabel (years : list JsString.t) (i : nat) : JsString.t :=
  orElse (nth_error years i) (JsString.of_ascii "Year " ++ JsString.ofNat (i + 1)).

(** [m] is among the months of a candidate found so far. *)
Definition owned (m : OcrWord) (candidates : list Candidate.t) : bool :=
  existsb (fun c => includes (Candidate.months c) m) candidates.

(** The test under which the turn of the outer loop at [m] pushes a
    candidate: more than three months in the group, the leading word not
    owned, more than one associated label. *)
Definition accepted (words : list OcrWord) (m : OcrWord) (later : list OcrWord)
           (candidates : list Candidate.t) : bool :=
  (3 <? List.length (monthGroupOf m later))%nat
  && negb (owned m candidates)
  && (1 <? List.length
             (associatedYAxisOf words (sortBy byX0 (monthGroupOf m later)) m))%nat.

(** The state of the outer loop once the words [before] are visited, the
    words [tail] still pending. *)
Fixpoint stateAt (words before tail : list OcrWord) (st : list Candidate.t * nat)
  : list Candidate.t * nat :=
  match before with
  | [] => st
  | b :: bs => stateAt words bs tail (visitMonth words b (bs ++ tail) st)
  end.

(** The invariant of a chart candidate. *)
Definition wellFormed (c : Candidate.t) : Prop :=
  (3 < List.length (Candidate.months c))%nat
  /\ (2 <= List.length (Candidate.yAxis c))%nat.

(** The sign test and the text after the sign, as [parseInt] and
    [parseFloat] take them from a text without leading white space. *)
Definition isMinus (s1 : JsString.t) : bool :=
  match s1 with
  | c :: _ => (c =? 45)%N
  | [] => false
  end.

Definition afterSign (s1 : JsString.t) : JsString.t :=
  match s1 with
  | c :: r => if ((c =? 45) || (c =? 43))%N then r else s1
  | [] => []
  end.

(** A candidate pushed by the turn of the loop at some position of the
    sorted month words. *)
Definition pushedBy (words : list OcrWord) (c : Candidate.t) : Prop :=
  exists before m later candidates chartId,
    potentialMonths words = before ++ m :: later
    /\ visitMonth words m later (candidates, chartId)
       = (candidates ++ [c], S chartId).

(** The left edge of a word, the key of the sorts by position. *)
Definition leftEdge (v : OcrWord) : Q := x0 (bbox v).

(** The centre of a bounding rectangle, as the finder computes it for the
    chart area. *)
Definition chartCenterOf (bounds : BBox) : Point :=
  mkPoint ((x0 bounds + x1 bounds) / 2) ((y0 bounds + y1 bounds) / 2).


(** A number that is not negative: a finite one from zero on, plus
    infinity, or NaN. *)
Definition notNegative (a : number) : Prop :=
  match a with
  | Fin q => 0 <= q
  | NegInf => False
  | PosInf | NaN => True
  end.

(** A scale the scan ends on: its zero line is not plus infinity, it is
    at row [2 ^ 53] at most, and the top of the chart area is at row
    [-2 ^ 53] at least. *)
Definition scannable (s : Scale) : Prop :=
  (- 2 ^ 53 <= Qfloor (top s))%Z
  /\ match zeroLine s with
     | Fin zero => (Qfloor zero <= 2 ^ 53)%Z
     | PosInf => False
     | NegInf | NaN => True
     end.

(* ------------------------------------------------------------------ *)
(** ** The bill history of the application *)

(** The part of the state of the [App] component that its history
    handlers read and write; a bill is known by its [id]. *)
Module App.
Section State.
Variable Bill : Type.
Variable id : Bill -> JsString.t.

Record state : Type := mkState {
  billData : option Bill;
  history : list Bill;
  capturedImage : option JsString.t;
  error : option JsString.t
}.

(** The state updates of [handleAnalyzeBill] once [analyzeBill] has
    returned [newBill]: the history keeps the new bill and the first 19
    of the bills it had. *)
Definition handleAnalyzeBillSuccess (newBill : Bill) (st : state) : state :=
  mkState (Some newBill) (newBill :: firstn 19 (history st)) None None.

Definition handleSelectHistory (key : JsString.t) (st : state) : state :=
  match find (fun item => JsString.eqb (id item) key) (history st) with
  | Some selectedBill => mkState (Some selectedBill) (history st) None None
  | None => st
  end.

Definition handleDeleteHistory (key : JsString.t) (st : state) : state :=
  let newHistory :=
    filter (fun item => negb (JsString.eqb (id item) key)) (history st) in
  mkState
    (match billData st with
     | Some b => if JsString.eqb (id b) key then None else Some b
     | None => None
     end)
    newHistory (capturedImage st) (error st).

Definition resetState (st : state) : state :=
  mkState None (history st) None None.

Definition handleBillDataUpdate (updatedBillData : Bill) (st : state) : state :=
  mkState (Some updatedBillData)
          (map (fun h => if JsString.eqb (id h) (id updatedBillData)
                         then updatedBillData else h)
               (history st))
          (capturedImage st) (error st).
End State.
End App.

(* ------------------------------------------------------------------ *)
(** ** The earlier chart processor, with fixed chart regions *)

Module V1.

(** [CHART_REGIONS.barChartArea]. *)
Definition areaTop : Z := 500.
Definition areaLeft : Z := 160.
Definition areaWidth : Z := 520.
Definition areaHeight : Z := 200.

Inductive failure : Type :=
| NoCanvasContext          (* "Could not get canvas context for bar detection." *)
| InsufficientYAxisData.   (* "Chart analysis failed: Insufficient Y-axis data from OCR." *)

(** What awaiting [detectBars] gives: the bar values, an error, or
    nothing when the image never loads. *)
Inductive result : Type :=
| Values (barValues : list number)
| Fails (e : failure)
| NeverLoads.

(** [imageData.data[index]] for the image data of the bar chart area,
    [getImageData(left, top, width, height)]: the bytes of the canvas
    pixels under the area (the raster holding all its pixels),
    transparent black where the area leaves the canvas, undefined outside
    the buffer. *)
Definition areaByte (img : Raster) (index : Z) : option N :=
  if ((index <? 0) || (areaWidth * areaHeight * 4 <=? index))%Z then None
  else
    let pixel := (index / 4)%Z in
    let channel := (index mod 4)%Z in
    let column := (areaLeft + pixel mod areaWidth)%Z in
    let row := (areaTop + pixel / areaWidth)%Z in
    if ((column <? Z.of_N (width img)) && (row <? Z.of_N (height img)))%Z
    then Some (nth (Z.to_nat ((row * Z.of_N (width img) + column) * 4 + channel))
                   (data img) 0%N)
    else Some 0%N.

Definition isDarkPixel (img : Raster) (index : Z) : bool :=
  below240 (areaByte img index)
  && below240 (areaByte img (index + 1))
  && below240 (areaByte img (index + 2)).

(** The parsed labels, each with the top edge of its word. *)
Definition yValuesOf (yAxisValues : list OcrWord) : list YValue :=
  flat_map
    (fun v =>
       match JsString.parseInt (JsString.removeCommas (text v)) with
       | Some n => [mkYValue n (y0 (bbox v))]
       | None => []
       end)
    yAxisValues.

(** The inner loop [for (y = height - 1; y >= 0; y--)], giving [barTopY]
    in page coordinates; [rows] is the number of rows left, [y + 1]. *)
Fixpoint scanArea (img : Raster) (relativeScanX : Z) (rows : nat) : Z :=
  match rows with
  | O => (-1)%Z
  | S rows' =>
      let row := Z.of_nat rows' in
      if isDarkPixel img ((row * areaWidth + relativeScanX) * 4)%Z
      then (row + areaTop)%Z
      else scanArea img relativeScanX rows'
  end.

Definition barValue (img : Raster) (baselineY : Q) (valuePerPixel : number)
           (month : OcrWord) : number :=
  let scanX :=
    Qfloor (x0 (bbox month) + (x1 (bbox month) - x0 (bbox month)) / 2 + (1 # 2)) in
  let relativeScanX := (scanX - areaLeft)%Z in
  let barTopY := scanArea img relativeScanX (Z.to_nat areaHeight) in
  if (barTopY =? -1)%Z then Fin 0
  else
    let pixelHeight := Num.sub (Fin baselineY) (Num.ofZ barTopY) in
    Num.round (Num.mul pixelHeight valuePerPixel).

Definition detectBars (page : Page) (months yAxisValues : list OcrWord) : result :=
  match image page with
  | None => NeverLoads
  | Some img =>
      if negb (context2d page) then Fails NoCanvasContext
      else
        let yValues := yValuesOf yAxisValues in
        if (List.length yValues <? 2)%nat then Fails InsufficientYAxisData
        else
          let sortedY := sortBy (fun a b => inject_Z (value a - value b)) yValues in
          match sortedY with
          | [] => Fails InsufficientYAxisData
          | yMin :: _ =>
              let yMax := last sortedY yMin in
              let pixelRange := Qabs (y yMin - y yMax) in
              let valueRange := (value yMax - value yMin)%Z in
              let valuePerPixel := Num.div (Num.ofZ valueRange) (Fin pixelRange) in
              let baselineY := y yMin in
              Values (map (barValue img baselineY valuePerPixel) months)
          end
  end.

End V1.

(* ------------------------------------------------------------------ *)
(** * Properties *)

(** ** Strings and classifiers *)

Lemma JsString_eqb_eq (a b : JsString.t) : JsString.eqb a b = true <-> a = b.
Proof.
  unfold JsString.eqb. destruct (list_eq_dec N.eq_dec a b); split; congruence.
Qed.

Lemma startsWith_prefix (s p : JsString.t) :
  JsString.startsWith s p = true <-> exists rest, s = p ++ rest.
Proof.
  revert s. induction p as [|c p IH]; intros s; simpl.
  - split; [intros _; now exists s | reflexivity].
  - destruct s as [|d s].
    + split; [discriminate | intros [rest H]; discriminate].
    + rewrite andb_true_iff, N.eqb_eq, IH. split.
      * intros [-> [rest ->]]. now exists rest.
      * intros [rest H]. injection H as -> ->. eauto.
Qed.

Lemma isLatinLetter_spec (c : N) :
  isLatinLetter c = true <->
  (65 <= c <= 90 \/ 97 <= c <= 122 \/ c = 304 \/ c = 8490)%N.
Proof.
  unfold isLatinLetter, JsString.lowerUnit, JsString.isLowerAZ.
  repeat (match goal with
          | |- context [(?a <=? ?b)%N] => destruct (N.leb_spec a b)
          | |- context [(?a =? ?b)%N] => destruct (N.eqb_spec a b)
          end; simpl);
    split; intros Hc; try discriminate; try reflexivity; lia.
Qed.

Lemma cleanText_nil_of_no_letters (s : JsString.t) :
  (forall c, In c s -> isLatinLetter c = false) -> cleanText s = [].
Proof.
  unfold cleanText, JsString.removeNonLowerAZ, JsString.toLowerCase.
  induction s as [|c s IH]; intros H; [reflexivity|].
  simpl. rewrite filter_app, IH by (intros; apply H; now right).
  rewrite app_nil_r.
  assert (Hc : isLatinLetter c = false) by (apply H; now left).
  unfold isLatinLetter in Hc.
  induction (JsString.lowerUnit c) as [|d l IHl]; [reflexivity|].
  simpl in *. apply orb_false_iff in Hc as [-> Hl]. auto.
Qed.

(** C8, as amended: [isMonth] holds exactly when the alphabetic-only
    lowercase form of the text is a prefix of (or equal to) one of the
    twelve month abbreviations; no minimum length is required, and such a
    form has at most three letters. *)
Theorem isMonth_iff_prefix (word : OcrWord) :
  (isMonth word = true <->
   exists m rest, In m MONTHS /\ m = cleanText (text word) ++ rest)
  /\ (isMonth word = true -> (List.length (cleanText (text word)) <= 3)%nat).
Proof.
  assert (E : isMonth word = true <->
              exists m rest, In m MONTHS /\ m = cleanText (text word) ++ rest).
  { unfold isMonth. rewrite existsb_exists. split.
    - intros [m [Hin Hs]]. apply startsWith_prefix in Hs as [rest ->]. eauto.
    - intros [m [rest [Hin ->]]]. eexists. split; [exact Hin|].
      apply startsWith_prefix. eauto. }
  split; [exact E|].
  intros H. apply E in H as [m [rest [Hin Hm]]].
  assert (L : List.length m = 3%nat).
  { unfold MONTHS in Hin. simpl in Hin.
    repeat (destruct Hin as [<-|Hin]; [reflexivity|]). contradiction. }
  rewrite Hm, length_app in L. lia.
Qed.

(** C8, the claim as stated fails: the two-letter form [ja] is classified
    as a month label. *)
Lemma isMonth_short_form_accepted :
  isMonth (Sample.ofText (JsString.of_ascii "Ja")) = true
  /\ (List.length (cleanText (text (Sample.ofText (JsString.of_ascii "Ja")))) < 3)%nat.
Proof. split; [reflexivity | vm_compute; lia]. Qed.

Lemma isMonth_iff_prefix_witness :
  isMonth (Sample.ofText (JsString.of_ascii "Oct.")) = true
  /\ (List.length (cleanText (text (Sample.ofText (JsString.of_ascii "Oct.")))) <= 3)%nat.
Proof.
  split; [reflexivity|].
  apply (proj2 (isMonth_iff_prefix (Sample.ofText (JsString.of_ascii "Oct.")))).
  reflexivity.
Defined.

(** C9, at the failing input: a word whose text is [m] followed by
    SUPERSCRIPT THREE, in either letter case, is not classified as a unit
    token, whatever its box and confidence. *)
Theorem isUnit_cubic_metre_rejected (i : nat) (b : BBox) (c : Q) :
  isUnit (mkWord i Sample.cubicMetre b c) = false
  /\ isUnit (mkWord i [77; 179]%N b c) = false.
Proof. split; reflexivity. Qed.

(** The lowercase form of a text never contains U+00C2, so the second
    entry of the vocabulary matches no word at all. *)
Lemma toLowerCase_no_capital_A_circumflex (s : JsString.t) :
  ~ In 194%N (JsString.toLowerCase s).
Proof.
  unfold JsString.toLowerCase. rewrite in_flat_map. intros [c [_ H]].
  unfold JsString.lowerUnit in H.
  repeat match type of H with
         | context [(?a <=? ?b)%N] => destruct (N.leb_spec a b)
         | context [(?a =? ?b)%N] => destruct (N.eqb_spec a b)
         end; simpl in H; lia.
Qed.

Lemma isUnit_iff (word : OcrWord) :
  isUnit word = true <->
  JsString.toLowerCase (text word) = JsString.of_ascii "kwh"
  \/ JsString.toLowerCase (text word) = JsString.of_ascii "therms".
Proof.
  unfold isUnit, UNITS. simpl. rewrite !orb_true_iff, !JsString_eqb_eq.
  split.
  - intros [H|[H|[H|H]]]; auto; [|discriminate].
    exfalso. apply (toLowerCase_no_capital_A_circumflex (text word)).
    rewrite H. right. now left.
  - intros [H|H]; auto.
Qed.

(** C10: a word whose text contains no Latin letter a to z, in either
    case, has the empty alphabetic-only lowercase form, and [isMonth]
    classifies it as a month label. *)
Theorem isMonth_without_letters (word : OcrWord) :
  (forall c, In c (text word) -> isLatinLetter c = false) ->
  cleanText (text word) = [] /\ isMonth word = true.
Proof.
  intros H. apply cleanText_nil_of_no_letters in H.
  split; [exact H|]. unfold isMonth. rewrite H. reflexivity.
Qed.

Lemma isMonth_without_letters_witness :
  cleanText (text (Sample.ofText (JsString.of_ascii "1,200"))) = []
  /\ isMonth (Sample.ofText (JsString.of_ascii "1,200")) = true.
Proof.
  apply (isMonth_without_letters (Sample.ofText (JsString.of_ascii "1,200"))).
  intros c Hc. simpl in Hc.
  repeat (destruct Hc as [<-|Hc]; [reflexivity|]). contradiction.
Defined.

(** The KELVIN SIGN counts as a Latin letter: its lowercase form is [k],
    which no month abbreviation starts with. *)
Lemma isMonth_kelvin_sign :
  isLatinLetter 8490 = true
  /\ cleanText Sample.kelvin = JsString.of_ascii "k"
  /\ isMonth (Sample.ofText Sample.kelvin) = false.
Proof. repeat split. Qed.

(* ------------------------------------------------------------------ *)
(** ** Numbers and sorting *)

Lemma Qltb_lt (a b : Q) : Qltb a b = true <-> a < b.
Proof.
  unfold Qltb. rewrite negb_true_iff. split.
  - intros H. apply Qnot_le_lt. intros Hle.
    apply Qle_bool_iff in Hle. congruence.
  - intros H. destruct (Qle_bool b a) eqn:E; [|reflexivity].
    apply Qle_bool_iff in E. exfalso. apply (Qlt_not_le _ _ H E).
Qed.

Lemma Qltb_ge (a b : Q) : Qltb a b = false <-> b <= a.
Proof.
  unfold Qltb. rewrite negb_false_iff. apply Qle_bool_iff.
Qed.

Lemma Qeq_bool_false (a b : Q) : ~ a == b -> Qeq_bool a b = false.
Proof.
  intros H. destruct (Qeq_bool a b) eqn:E; [|reflexivity].
  apply Qeq_bool_iff in E. contradiction.
Qed.


Lemma div_unfold (p q : Q) :
  Num.div (Fin p) (Fin q)
  = if Qeq_bool q 0 then Num.scaleInf p else Fin (Qred (p / q)).
Proof. reflexivity. Qed.

Lemma scaleInf_pos (q : Q) : 0 < q -> Num.scaleInf q = PosInf.
Proof.
  intros H. unfold Num.scaleInf. now rewrite (proj1 (Qgt_alt q 0) H).
Qed.

Lemma scaleInf_zero (q : Q) : q == 0 -> Num.scaleInf q = NaN.
Proof.
  intros H. unfold Num.scaleInf. now rewrite (proj1 (Qeq_alt q 0) H).
Qed.

Section SortFacts.
Variable A : Type.
Variable cmp : A -> A -> Q.

Lemma insertSorted_perm (x : A) (l : list A) :
  Permutation (insertSorted cmp x l) (x :: l).
Proof.
  induction l as [|a l IH]; simpl; [reflexivity|].
  destruct (Qltb 0 (cmp x a)); [|reflexivity].
  rewrite IH. apply perm_swap.
Qed.

Lemma sortBy_perm (l : list A) : Permutation (sortBy cmp l) l.
Proof.
  induction l as [|a l IH]; simpl; [reflexivity|].
  rewrite insertSorted_perm. now constructor.
Qed.

Lemma sortBy_length (l : list A) : List.length (sortBy cmp l) = List.length l.
Proof. apply Permutation_length, sortBy_perm. Qed.

(** With a comparator that is the difference of a key, the result is
    ascending in the key. *)
Variable key : A -> Q.
Hypothesis cmp_key : forall a b, cmp a b == key a - key b.

Lemma insertSorted_sorted (x : A) (l : list A) :
  StronglySorted (fun a b => key a <= key b) l ->
  StronglySorted (fun a b => key a <= key b) (insertSorted cmp x l).
Proof.
  induction 1 as [|a l Hs IH Hall]; simpl.
  - repeat constructor.
  - destruct (Qltb 0 (cmp x a)) eqn:E.
    + constructor; [exact IH|].
      apply Qltb_lt in E. rewrite cmp_key in E.
      eapply Permutation_Forall;
        [symmetry; apply insertSorted_perm|].
      constructor; [lra | exact Hall].
    + apply Qltb_ge in E. rewrite cmp_key in E.
      constructor; [now constructor|].
      constructor; [lra|].
      eapply Forall_impl; [|exact Hall]. simpl. intros b Hb. lra.
Qed.

Lemma sortBy_sorted (l : list A) :
  StronglySorted (fun a b => key a <= key b) (sortBy cmp l).
Proof.
  induction l as [|a l IH]; simpl; [constructor|].
  now apply insertSorted_sorted.
Qed.


End SortFacts.

Lemma StronglySorted_weaken {A : Type} (R S : A -> A -> Prop) (l : list A) :
  (forall a b, R a b -> S a b) -> StronglySorted R l -> StronglySorted S l.
Proof.
  intros HRS. induction 1 as [|a l Hs IH Hall]; constructor; [exact IH|].
  eapply Forall_impl; [|exact Hall]. auto.
Qed.

(* ------------------------------------------------------------------ *)
(** ** Binary64 *)

Lemma round_Qeq (x q : Q) : x == q -> Double.round x = Double.round q.
Proof. intros E. unfold Double.round. now rewrite (Qred_complete _ _ E). Qed.

Lemma Qred_inject_Z (z : Z) : Qred (inject_Z z) = inject_Z z.
Proof. apply Qcanon.Qred_identity. simpl. apply Z.gcd_1_r. Qed.

Lemma nearestEven_Z (x : Q) (t : Z) : x == inject_Z t -> Double.nearestEven x = t.
Proof.
  intros E. unfold Double.nearestEven.
  assert (F : Qfloor x = t) by (rewrite (Qfloor_comp _ _ E); apply Qfloor_Z).
  rewrite F.
  assert (L : x - inject_Z t < 1 # 2) by (rewrite E; lra).
  assert (C : Qcompare (x - inject_Z t) (1 # 2) = Lt) by (apply Qlt_alt; exact L).
  now rewrite C.
Qed.

Lemma pow2_nonneg (k : Z) : (0 <= k)%Z -> (2 : Q) ^ k == inject_Z (2 ^ k).
Proof. intros H. symmetry. apply (Zpower_Qpower 2 k H). Qed.

Lemma binade_Z (n : Z) : (0 < n)%Z -> Double.binade (inject_Z n) = Z.log2 n.
Proof.
  intros H. unfold Double.binade.
  change (Qnum (inject_Z n)) with n. change (Z.pos (Qden (inject_Z n))) with 1%Z.
  change (Z.log2 1) with 0%Z. rewrite Z.sub_0_r.
  assert (K : (0 <= Z.log2 n)%Z) by apply Z.log2_nonneg.
  assert (L : Qle_bool (2 ^ Z.log2 n) (inject_Z n) = true).
  { apply Qle_bool_iff. rewrite (pow2_nonneg K). rewrite <- Zle_Qle.
    apply Z.log2_spec. exact H. }
  now rewrite L.
Qed.

(** The significand of a positive integer below [2 ^ 53]. *)
Lemma significand_Z (n : Z) :
  (0 < n < 2 ^ 53)%Z ->
  Double.nearestEven (inject_Z n / 2 ^ (Z.log2 n - 52)) = (n * 2 ^ (52 - Z.log2 n))%Z
  /\ inject_Z (n * 2 ^ (52 - Z.log2 n)) * 2 ^ (Z.log2 n - 52) == inject_Z n.
Proof.
  intros [H0 H1].
  assert (K : (0 <= Z.log2 n <= 52)%Z).
  { split; [apply Z.log2_nonneg|].
    assert (Z.log2 n < 53)%Z by (apply Z.log2_lt_pow2; lia). lia. }
  set (j := (52 - Z.log2 n)%Z).
  assert (J : (0 <= j)%Z) by (unfold j; lia).
  assert (E : (2 : Q) ^ (Z.log2 n - 52) == / inject_Z (2 ^ j)).
  { replace (Z.log2 n - 52)%Z with (- j)%Z by (unfold j; lia).
    rewrite Qpower_opp, (pow2_nonneg J). reflexivity. }
  assert (P : (0 < 2 ^ j)%Z) by (apply Z.pow_pos_nonneg; lia).
  assert (PQ : ~ inject_Z (2 ^ j) == 0).
  { change 0 with (inject_Z 0). rewrite inject_Z_injective. lia. }
  split.
  - apply nearestEven_Z. rewrite E, inject_Z_mult. field. exact PQ.
  - rewrite E, inject_Z_mult. field. exact PQ.
Qed.

(** An integer of at most [2 ^ 53] in size is a binary64 number. *)
Lemma round_Z (z : Z) :
  (Z.abs z <= 2 ^ 53)%Z -> Double.round (inject_Z z) = Fin (inject_Z z).
Proof.
  intros H.
  destruct (Z.eq_dec z 0) as [->|Hz]; [reflexivity|].
  destruct (Z.eq_dec (Z.abs z) (2 ^ 53)) as [Ht|Ht].
  { destruct (Z.abs_eq_or_opp z) as [A|A]; rewrite A in Ht.
    - subst z. vm_compute. reflexivity.
    - assert (z = (- 2 ^ 53)%Z) by lia. subst z. vm_compute. reflexivity. }
  assert (Hn : (0 < Z.abs z < 2 ^ 53)%Z) by lia.
  destruct (significand_Z Hn) as [Hm Hv].
  unfold Double.round. rewrite Qred_inject_Z.
  assert (N0 : Qeq_bool (inject_Z z) 0 = false).
  { destruct (Qeq_bool (inject_Z z) 0) eqn:E; [|reflexivity].
    apply Qeq_bool_iff in E. change 0 with (inject_Z 0) in E.
    rewrite inject_Z_injective in E. contradiction. }
  rewrite N0. cbv zeta.
  change (Qabs (inject_Z z)) with (inject_Z (Z.abs z)).
  rewrite (binade_Z (proj1 Hn)).
  assert (K : (0 <= Z.log2 (Z.abs z) <= 52)%Z).
  { split; [apply Z.log2_nonneg|].
    assert (Z.log2 (Z.abs z) < 53)%Z by (apply Z.log2_lt_pow2; lia). lia. }
  rewrite (Z.max_l _ _) by lia.
  rewrite Hm.
  assert (O1 : (971 <? Z.log2 (Z.abs z) - 52)%Z = false) by (apply Z.ltb_ge; lia).
  assert (O2 : (Z.log2 (Z.abs z) - 52 =? 971)%Z = false) by (apply Z.eqb_neq; lia).
  rewrite O1, O2. cbn [orb andb]. f_equal.
  rewrite <- (Qred_inject_Z z) at 2. apply Qred_complete.
  rewrite Hv.
  destruct (Qltb (inject_Z z) 0) eqn:S.
  - apply Qltb_lt in S. change 0 with (inject_Z 0) in S. rewrite <- Zlt_Qlt in S.
    rewrite (Z.abs_neq z) by lia. rewrite inject_Z_opp. ring.
  - assert (0 <= z)%Z.
    { destruct (Z.le_gt_cases 0 z) as [L|G]; [exact L|]. exfalso.
      assert (T : Qltb (inject_Z z) 0 = true).
      { apply Qltb_lt. change 0 with (inject_Z 0). now rewrite <- Zlt_Qlt. }
      congruence. }
    rewrite (Z.abs_eq z) by lia. ring.
Qed.

(** Where the exact result is a binary64 number, the operation of the
    code gives it. *)
Lemma round_exact (x q : Q) :
  x == q -> Double.exact q -> exists p, Double.round x = Fin p /\ p == q.
Proof.
  intros E H. rewrite (round_Qeq E). unfold Double.exact in H.
  destruct (Double.round q) as [p| | |]; cbn [Num.same] in H; try contradiction.
  exists p. auto.
Qed.



Lemma sub_exact (a b q : Q) :
  a - b == q -> Double.exact q ->
  exists p, Double.sub (Fin a) (Fin b) = Fin p /\ p == q.
Proof.
  intros E H. cbn [Double.sub Num.sub Num.add Num.neg Double.lift].
  apply round_exact; [|exact H]. rewrite !Qred_correct. exact E.
Qed.





(* ------------------------------------------------------------------ *)
(** ** Axis calibration *)

Lemma calibrate_None (yValues : list YValue) :
  calibrate yValues = None <-> (List.length yValues < 2)%nat.
Proof.
  destruct yValues as [|a [|b l]]; simpl; split; intros H;
    try reflexivity; try discriminate; lia.
Qed.

Lemma calibrate_Some (yValues : list YValue) (c : Calibration) :
  calibrate yValues = Some c ->
  forall d,
    yMin c = hd d yValues /\ yMax c = last yValues d
    /\ pixelRange c = Qabs (y (yMin c) - y (yMax c))
    /\ valueRange c = (value (yMax c) - value (yMin c))%Z
    /\ valuePerPixel c = Num.div (Num.ofZ (valueRange c)) (Fin (pixelRange c))
    /\ zeroLineY c =
       if (value (yMin c) =? 0)%Z then Fin (y (yMin c))
       else Num.add (Fin (y (yMax c)))
              (Num.mul (Num.div (Num.ofZ (value (yMax c))) (Num.ofZ (valueRange c)))
                       (Fin (pixelRange c))).
Proof.
  destruct yValues as [|a [|b l]]; try discriminate.
  intros H d. injection H as <-. cbn [yMin yMax pixelRange valueRange valuePerPixel zeroLineY hd].
  assert (E : forall d', last (a :: b :: l) d' = last (a :: b :: l) a).
  { intros d'. change (last (b :: l) d' = last (b :: l) a).
    generalize b. induction l as [|x l IH]; intros b'; [reflexivity|].
    change (last (x :: l) d' = last (x :: l) a). apply IH. }
  rewrite (E d). repeat split.
Qed.







(** The extrapolation the source writes, [(valueMax / valueRange) *
    pixelRange], is [valueMax / valuePerPixel], also where a range is zero. *)
Lemma extrapolation_rule (ymax vmax vr pr : Q) :
  0 <= pr ->
  Num.same
    (Num.add (Fin ymax) (Num.mul (Num.div (Fin vmax) (Fin vr)) (Fin pr)))
    (Num.add (Fin ymax) (Num.div (Fin vmax) (Num.div (Fin vr) (Fin pr)))).
Proof.
  intros Hpr. rewrite !div_unfold.
  destruct (Qeq_bool pr 0) eqn:Ep; destruct (Qeq_bool vr 0) eqn:Ev.
  - apply Qeq_bool_iff in Ep, Ev.
    rewrite (scaleInf_zero Ev). unfold Num.scaleInf.
    destruct (vmax ?= 0); cbn [Num.mul Num.neg Num.add Num.div];
      rewrite ?(scaleInf_zero Ep); exact I.
  - apply Qeq_bool_iff in Ep. apply Qeq_bool_neq in Ev.
    assert (Hs : Num.div (Fin vmax) (Num.scaleInf vr) = Fin 0).
    { unfold Num.scaleInf. destruct (vr ?= 0) eqn:E; try reflexivity.
      apply Qeq_alt in E. contradiction. }
    rewrite Hs. cbn [Num.mul Num.add Num.same].
    rewrite !Qred_correct, Ep. ring.
  - apply Qeq_bool_iff in Ev. apply Qeq_bool_neq in Ep.
    assert (Hp : 0 < pr) by (destruct (Qlt_le_dec 0 pr) as [L|L]; [exact L|];
                             exfalso; apply Ep; lra).
    assert (Hq : Qeq_bool (Qred (vr / pr)) 0 = true).
    { apply Qeq_bool_iff. rewrite Qred_correct, Ev. field. lra. }
    rewrite div_unfold, Hq. unfold Num.scaleInf at 1 2.
    destruct (vmax ?= 0); cbn [Num.mul Num.neg Num.add Num.same];
      rewrite ?(scaleInf_pos Hp); exact I.
  - apply Qeq_bool_neq in Ev, Ep.
    assert (Hq : Qeq_bool (Qred (vr / pr)) 0 = false).
    { apply Qeq_bool_false. rewrite Qred_correct. intros H.
      apply Ev. rewrite <- (Qmult_div_r vr pr Ep), H. ring. }
    rewrite div_unfold, Hq. cbn [Num.mul Num.add Num.same].
    rewrite !Qred_correct. field. split; assumption.
Qed.

(** C2, as amended: for the labels [100] at row 300 and [500] at row 100
    the zero line is row 350, below row 300; and for every label set the
    zero line is the row of the least label when its value is 0, and
    otherwise [pixelAtMax + valueMax / valuePerPixel]. *)
Theorem zeroLine_extrapolation :
  (exists c,
      calibrate (yValuesOf Sample.floorAxis) = Some c
      /\ valuePerPixel c = Fin 2
      /\ zeroLineY c = Fin 350
      /\ y (yMin c) == 300 /\ y (yMin c) < 350)
  /\ (forall yValues c,
         calibrate yValues = Some c ->
         ((value (yMin c) = 0)%Z -> zeroLineY c = Fin (y (yMin c)))
         /\ ((value (yMin c) <> 0)%Z ->
             Num.same (zeroLineY c)
                      (Num.add (Fin (y (yMax c)))
                               (Num.div (Num.ofZ (value (yMax c)))
                                        (valuePerPixel c))))).
Proof.
  split.
  - eexists. split; [vm_compute; reflexivity|].
    repeat split; vm_compute; reflexivity.
  - intros yValues c Hc.
    destruct (calibrate_Some _ Hc (yMin c)) as (_ & _ & Hpr & _ & Hvpp & Hz).
    rewrite Hz, Hvpp. split; intros H.
    + now rewrite (proj2 (Z.eqb_eq _ _) H).
    + rewrite (proj2 (Z.eqb_neq _ _) H). unfold Num.ofZ.
      apply extrapolation_rule. rewrite Hpr. apply Qabs_nonneg.
Qed.

Lemma zeroLine_extrapolation_witness :
  exists c,
    calibrate (yValuesOf Sample.zeroAxis) = Some c
    /\ zeroLineY c = Fin (y (yMin c)).
Proof.
  eexists. split; [vm_compute; reflexivity|].
  apply (proj2 zeroLine_extrapolation (yValuesOf Sample.zeroAxis)).
  - vm_compute; reflexivity.
  - reflexivity.
Defined.

(** C2, the claim as stated fails: the zero line of the labels [100] at
    row 300 and [500] at row 100 is not row 340. *)
Lemma zeroLine_not_340 :
  exists c,
    calibrate (yValuesOf Sample.floorAxis) = Some c
    /\ zeroLineY c = Fin 350
    /\ ~ Num.same (zeroLineY c) (Fin 340).
Proof.
  eexists. split; [vm_compute; reflexivity|].
  split; [vm_compute; reflexivity|]. vm_compute. discriminate.
Qed.

(** The calibration of the labels [100] at row 300 and [500] at row 100
    goes through binary64 numbers only: the code computes the scale 2 and
    the zero line 350 without rounding. *)
Lemma zeroLine_scenario_double :
  calibrateDouble (yValuesOf Sample.floorAxis)
  = Some (mkScale 100 (Fin 2) (Fin 350)).
Proof. vm_compute. reflexivity. Qed.

(* ------------------------------------------------------------------ *)
(** ** Chart candidates *)

(** What one turn of the outer loop does to the candidate array. *)
Lemma visitMonth_cases (words : list OcrWord) (m : OcrWord) (later : list OcrWord)
      (candidates : list Candidate.t) (chartId : nat) :
  if accepted words m later candidates
  then exists c,
      visitMonth words m later (candidates, chartId) = (candidates ++ [c], S chartId)
      /\ Candidate.id c = chartId
      /\ Candidate.months c = sortBy byX0 (monthGroupOf m later)
      /\ Candidate.yAxis c
         = associatedYAxisOf words (sortBy byX0 (monthGroupOf m later)) m
  else visitMonth words m later (candidates, chartId) = (candidates, chartId).
Proof.
  unfold accepted, visitMonth, owned.
  change (hd m (monthGroupOf m later)) with m.
  destruct ((3 <? List.length (monthGroupOf m later))%nat
            && negb (existsb (fun c => includes (Candidate.months c) m) candidates));
    [|reflexivity].
  rewrite andb_true_l.
  destruct (1 <? List.length
                   (associatedYAxisOf words (sortBy byX0 (monthGroupOf m later)) m))%nat;
    [|reflexivity].
  eexists. split; [reflexivity|]. cbn [Candidate.id Candidate.months Candidate.yAxis].
  auto.
Qed.

Lemma visitMonth_wellFormed (words : list OcrWord) (m : OcrWord)
      (later : list OcrWord) (st : list Candidate.t * nat) :
  Forall wellFormed (fst st) ->
  Forall wellFormed (fst (visitMonth words m later st)).
Proof.
  destruct st as [candidates chartId]. intros H.
  pose proof (visitMonth_cases words m later candidates chartId) as C.
  destruct (accepted words m later candidates) eqn:E; [|now rewrite C].
  destruct C as (c & -> & _ & Hm & Hy).
  unfold accepted in E. apply andb_true_iff in E as [E E1].
  apply andb_true_iff in E as [E3 _].
  apply Nat.ltb_lt in E1, E3.
  cbn [fst]. apply Forall_app. split; [exact H|].
  constructor; [|constructor]. split.
  - rewrite Hm, sortBy_length. exact E3.
  - rewrite Hy. lia.
Qed.

Lemma clusterFrom_wellFormed (words pending : list OcrWord)
      (st : list Candidate.t * nat) :
  Forall wellFormed (fst st) ->
  Forall wellFormed (fst (clusterFrom words pending st)).
Proof.
  revert st. induction pending as [|m later IH]; intros st H; simpl; [exact H|].
  apply IH, visitMonth_wellFormed, H.
Qed.

Lemma visitMonth_keeps (words : list OcrWord) (m : OcrWord) (later : list OcrWord)
      (st : list Candidate.t * nat) (c : Candidate.t) :
  In c (fst st) -> In c (fst (visitMonth words m later st)).
Proof.
  destruct st as [candidates chartId]. intros H.
  pose proof (visitMonth_cases words m later candidates chartId) as C.
  destruct (accepted words m later candidates).
  - destruct C as (c' & -> & _). cbn [fst]. apply in_or_app. now left.
  - now rewrite C.
Qed.

Lemma clusterFrom_keeps (words pending : list OcrWord)
      (st : list Candidate.t * nat) (c : Candidate.t) :
  In c (fst st) -> In c (fst (clusterFrom words pending st)).
Proof.
  revert st. induction pending as [|m later IH]; intros st H; simpl; [exact H|].
  apply IH, visitMonth_keeps, H.
Qed.

Lemma clusterFrom_app (words before tail : list OcrWord)
      (st : list Candidate.t * nat) :
  clusterFrom words (before ++ tail) st
  = clusterFrom words tail (stateAt words before tail st).
Proof.
  revert st. induction before as [|b bs IH]; intros st; simpl; [reflexivity|].
  apply IH.
Qed.

(** C5, at the failing input: on [Sample.overlappingRows] two candidates
    are returned, and the words [Mar], [Apr] and [May] are months of
    both. *)
Theorem findChartCandidates_shared_months :
  exists c1 c2,
    findChartCandidates Sample.overlappingRows = [c1; c2]
    /\ map oid (Candidate.months c1) = [2; 4; 5; 6]%nat
    /\ map oid (Candidate.months c2) = [3; 4; 5; 6]%nat
    /\ includes (Candidate.months c1) (Sample.word 4 "Mar" 140 4 160 14) = true
    /\ includes (Candidate.months c2) (Sample.word 4 "Mar" 140 4 160 14) = true.
Proof.
  do 2 eexists. split; [vm_compute; reflexivity|].
  repeat split; vm_compute; reflexivity.
Qed.

(* ------------------------------------------------------------------ *)
(** ** Pixel scan *)

Lemma exact_Z (z : Z) : (Z.abs z <= 2 ^ 53)%Z -> Double.exact (inject_Z z).
Proof. intros H. unfold Double.exact. rewrite (@round_Z z H). reflexivity. Qed.

(** [y--] lowers a row by one between [-2 ^ 53] and [2 ^ 53]. *)
Lemma decrement_exact (row : Z) :
  (- 2 ^ 53 < row <= 2 ^ 53)%Z -> decrement row = (row - 1)%Z.
Proof.
  intros H. unfold decrement, Num.ofZ.
  destruct (@sub_exact (inject_Z row) 1 (inject_Z (row - 1))) as (p & -> & Hp).
  - unfold Z.sub. rewrite inject_Z_plus, inject_Z_opp. reflexivity.
  - apply exact_Z. lia.
  - rewrite (Qfloor_comp _ _ Hp). apply Qfloor_Z.
Qed.




(** Between [-2 ^ 53] and [2 ^ 53] the loop ends: it gives the first dark
    row met going up, or -1. *)
Lemma scanRowsDouble_returns (img : Raster) (scanX : number) (top : Q) :
  (- 2 ^ 53 <= Qfloor top)%Z ->
  forall (rows : nat) (row : Z),
    (row <= 2 ^ 53)%Z ->
    (Z.to_nat (row - Qfloor top) <= rows)%nat ->
    exists b,
      scanRowsDouble img scanX top rows row = Returns b
      /\ (b <> (-1)%Z ->
          top < inject_Z b /\ (b <= row)%Z
          /\ isDarkPixelDouble (data img) (pixelIndexDouble img b scanX) = true
          /\ forall r, (b < r <= row)%Z ->
                       isDarkPixelDouble (data img) (pixelIndexDouble img r scanX)
                       = false)
      /\ (b = (-1)%Z ->
          forall r, top < inject_Z r -> (-1 < r <= row)%Z ->
                    isDarkPixelDouble (data img) (pixelIndexDouble img r scanX)
                    = false).
Proof.
  intros Htop. induction rows as [|rows IH]; intros row Hrow Hfuel.
  - assert (G : Qltb top (inject_Z row) = false).
    { apply Qltb_ge. apply Qle_trans with (inject_Z (Qfloor top)).
      - rewrite <- Zle_Qle. lia.
      - apply Qfloor_le. }
    cbn [scanRowsDouble]. rewrite G. exists (-1)%Z. split; [reflexivity|].
    split; [congruence|]. intros _ r Hr Hle. exfalso.
    apply Qltb_ge in G.
    assert (inject_Z r <= inject_Z row) by (rewrite <- Zle_Qle; lia). lra.
  - cbn [scanRowsDouble]. destruct (Qltb top (inject_Z row)) eqn:G.
    + apply Qltb_lt in G.
      destruct (isDarkPixelDouble (data img) (pixelIndexDouble img row scanX)) eqn:D.
      * exists row. split; [reflexivity|]. split.
        -- intros _. repeat split; auto; try lia.
        -- intros -> r Hr Hle. lia.
      * assert (Hlow : (- 2 ^ 53 < row)%Z).
        { assert (inject_Z (Qfloor top) < inject_Z row)
            by (pose proof (Qfloor_le top); lra).
          rewrite <- Zlt_Qlt in H. lia. }
        rewrite (@decrement_exact row (conj Hlow Hrow)).
        assert (Ne : ((row - 1 =? row)%Z = false)) by (apply Z.eqb_neq; lia).
        rewrite Ne.
        destruct (IH (row - 1)%Z) as (b & Eb & Hf & Hn); [lia | lia |].
        exists b. split; [exact Eb|]. split.
        -- intros Hb. destruct (Hf Hb) as (A & B & C & F).
           repeat split; auto; [lia|]. intros r Hr.
           destruct (Z.eq_dec r row) as [->|Hne]; [exact D|]. apply F. lia.
        -- intros Hb r Hr Hle.
           destruct (Z.eq_dec r row) as [->|Hne]; [exact D|].
           apply (Hn Hb r Hr). lia.
    + exists (-1)%Z. split; [reflexivity|]. split; [congruence|].
      intros _ r Hr Hle. exfalso. apply Qltb_ge in G.
      assert (inject_Z r <= inject_Z row) by (rewrite <- Zle_Qle; lia). lra.
Qed.




(* ------------------------------------------------------------------ *)
(** ** Measuring a candidate *)

Lemma mapM_never_throws {A B : Type} (f : A -> outcome B) (l : list A) :
  (forall a e, f a <> Throws e) -> forall e, mapM f l <> Throws e.
Proof.
  intros Hf e. induction l as [|a l IH]; simpl; [discriminate|].
  destruct (f a) eqn:Ea; simpl.
  - destruct (mapM f l); simpl; congruence.
  - exfalso. apply (Hf a e0). exact Ea.
  - discriminate.
Qed.

Lemma scanSlot_never_throws (img : Raster) (cal : Calibration)
      (years : list JsString.t) (month : OcrWord) (i : nat) (e : error) :
  scanSlot img cal years month i <> Throws e.
Proof.
  unfold scanSlot, scanColumn.
  destruct (Num.floor (zeroLineY cal)); cbn [bind]; try discriminate;
    match goal with |- context [(?a =? ?b)%Z] => destruct (a =? b)%Z end;
    discriminate.
Qed.

Lemma scanMonth_never_throws (img : Raster) (cal : Calibration)
      (years : list JsString.t) (month : OcrWord) (e : error) :
  scanMonth img cal years month <> Throws e.
Proof.
  unfold scanMonth.
  pose proof (@mapM_never_throws _ _ (scanSlot img cal years month)
                (seq 0 (numYears years))
                (scanSlot_never_throws img cal years month) e) as H.
  destruct (mapM (scanSlot img cal years month) (seq 0 (numYears years)));
    cbn [bind]; congruence.
Qed.

Lemma yValuesOf_length (yAxis : list OcrWord) :
  List.length (yValuesOf yAxis) = List.length (filter parsable yAxis).
Proof.
  unfold yValuesOf. rewrite sortBy_length.
  induction yAxis as [|v l IH]; [reflexivity|].
  cbn [flat_map filter]. rewrite length_app, IH.
  destruct (parsable v) eqn:E; unfold parsable in E;
    destruct (JsString.parseInt (JsString.removeCommas (text v)));
    try discriminate; reflexivity.
Qed.

(** C3, as amended: with the page image loaded and a canvas context at
    hand, [detectBarsForChart] raises the insufficient-labels error of a
    candidate exactly when fewer than two of its y-axis words parse to a
    number; the values of the labels play no part in it. *)
Theorem detectBars_insufficient_labels
        (page : Page) (img : Raster) (chart : Candidate.t) :
  image page = Some img -> context2d page = true ->
  (detectBarsForChart page chart
   = Throws (InsufficientYAxisLabels (Candidate.id chart))
   <-> (List.length (filter parsable (Candidate.yAxis chart)) < 2)%nat).
Proof.
  intros Hi Hc. unfold detectBarsForChart. rewrite Hi, Hc. cbn [negb].
  rewrite <- yValuesOf_length, <- calibrate_None.
  destruct (calibrate (yValuesOf (Candidate.yAxis chart))) as [cal|].
  - split; [|discriminate]. intros H. exfalso.
    destruct (Candidate.months chart) as [|m ms] eqn:Em; [discriminate|].
    destruct ((width img =? 0) || (height img =? 0))%N; [discriminate|].
    pose proof (@mapM_never_throws _ _
                  (scanMonth img cal (map text (Candidate.legend chart)))
                  (m :: ms)
                  (scanMonth_never_throws img cal
                     (map text (Candidate.legend chart)))
                  (InsufficientYAxisLabels (Candidate.id chart))) as N.
    destruct (mapM (scanMonth img cal (map text (Candidate.legend chart))) (m :: ms));
      cbn [bind] in H; congruence.
  - split; reflexivity.
Qed.

Lemma detectBars_insufficient_labels_witness :
  detectBarsForChart Sample.blankPage Sample.oneLabelCandidate
  = Throws (InsufficientYAxisLabels (Candidate.id Sample.oneLabelCandidate)).
Proof.
  apply (proj2 (@detectBars_insufficient_labels Sample.blankPage
                  (mkRaster 1 1 [255; 255; 255; 255]%N)
                  Sample.oneLabelCandidate eq_refl eq_refl)).
  vm_compute. lia.
Defined.

(** C3, the claim as stated fails: the candidate whose two labels both
    read [0] is not rejected; its measurement returns a chart. *)
Lemma detectBars_repeated_label_accepted :
  map value (yValuesOf (Candidate.yAxis Sample.repeatedCandidate)) = [0; 0]%Z
  /\ exists chart,
      detectBarsForChart Sample.blankPage Sample.repeatedCandidate = Returns chart.
Proof.
  split; [vm_compute; reflexivity|].
  eexists. vm_compute. reflexivity.
Qed.

(** With two labels of one nonzero value the value range is 0 and the
    zero line is infinite: the scan of the first slot never ends. *)
Lemma detectBars_equal_nonzero_labels_pending :
  (exists cal,
      calibrate (yValuesOf (Candidate.yAxis Sample.stuckCandidate)) = Some cal
      /\ valuePerPixel cal = Fin 0 /\ zeroLineY cal = PosInf)
  /\ detectBarsForChart Sample.blankPage Sample.stuckCandidate = Pending.
Proof.
  split; [eexists; split; [vm_compute; reflexivity | split; reflexivity]|].
  vm_compute. reflexivity.
Qed.

(* ------------------------------------------------------------------ *)
(** ** The exported entry point *)

Lemma processCandidates_collects (page : Page) (candidates : list Candidate.t) :
  forall processedCharts,
    (forall c, In c candidates -> detectBarsForChart page c <> Pending) ->
    processCandidates page candidates processedCharts
    = Returns (processedCharts ++ flat_map (measured page) candidates).
Proof.
  induction candidates as [|c rest IH]; intros acc H.
  - simpl. now rewrite app_nil_r.
  - cbn [processCandidates flat_map]. unfold measured at 1.
    assert (Hc : detectBarsForChart page c <> Pending) by (apply H; now left).
    assert (Hr : forall c', In c' rest -> detectBarsForChart page c' <> Pending)
      by (intros c' Hin; apply H; now right).
    destruct (detectBarsForChart page c) as [chartData|e|]; [| |contradiction].
    + rewrite (IH _ Hr), <- app_assoc. reflexivity.
    + rewrite (IH _ Hr). reflexivity.
Qed.

(** What the [try] block contains: once the worker is created, and
    provided it terminates normally, [processChart] returns the empty
    sequence when recognition raises an error; and when recognition
    returns and every measurement settles, it returns, in discovery
    order, the charts of the candidates whose measurement returned: a
    candidate whose measurement raised an error is left out and the
    others are kept. *)
Lemma processChart_containment (eng : Engine) (page : Page) :
  createWorker eng = Returns tt ->
  terminate eng = Returns tt ->
  (forall e, recognize eng = Throws e -> processChart eng page = Returns [])
  /\ (forall data,
         recognize eng = Returns data ->
         (forall c,
             In c (findChartCandidates (freshWordsFrom 0 (flattenWords data))) ->
             detectBarsForChart page c <> Pending) ->
         processChart eng page
         = Returns (flat_map (measured page)
                      (findChartCandidates (freshWordsFrom 0 (flattenWords data))))).
Proof.
  intros Hw Ht. unfold processChart, processChartBody. rewrite Hw. cbn [bind].
  split.
  - intros e He. rewrite He. cbn [bind]. rewrite Ht. reflexivity.
  - intros data Hd Hs. rewrite Hd. cbn [bind].
    destruct (findChartCandidates (freshWordsFrom 0 (flattenWords data)))
      as [|c rest] eqn:E.
    + rewrite Ht. reflexivity.
    + rewrite (processCandidates_collects page (c :: rest) [] Hs).
      rewrite Ht. reflexivity.
Qed.

Lemma processChart_containment_witness :
  (exists first second kept,
      findChartCandidates
        (freshWordsFrom 0 (flattenWords (Some [Some [Some [Some Sample.twoCharts]]])))
      = [first; second]
      /\ detectBarsForChart Sample.blankPage first = Returns kept
      /\ detectBarsForChart Sample.blankPage second
         = Throws (InsufficientYAxisLabels 1)
      /\ processChart (Sample.engineReading Sample.twoCharts) Sample.blankPage
         = Returns [kept])
  /\ processChart (mkEngine (Returns tt) (Throws EngineError) (Returns tt))
                  Sample.blankPage
     = Returns [].
Proof.
  split.
  - do 3 eexists. split; [vm_compute; reflexivity|].
    split; [vm_compute; reflexivity|]. split; [vm_compute; reflexivity|].
    rewrite (proj2 (@processChart_containment
                      (Sample.engineReading Sample.twoCharts) Sample.blankPage
                      eq_refl eq_refl)
                   (Some [Some [Some [Some Sample.twoCharts]]]) eq_refl).
    + vm_compute. reflexivity.
    + intros c Hc. vm_compute in Hc.
      destruct Hc as [<-|[<-|[]]]; vm_compute; discriminate.
  - apply (proj1 (@processChart_containment
                    (mkEngine (Returns tt) (Throws EngineError) (Returns tt))
                    Sample.blankPage eq_refl eq_refl) EngineError).
    reflexivity.
Defined.

(** C7, at the failing input: when the worker of the engine cannot be
    created, [processChart] does not return the empty sequence; the
    error reaches its caller.  The creation of the worker stands before
    the [try]: the same error raised by recognition, inside it, gives the
    empty sequence. *)
Theorem processChart_engine_unavailable_throws :
  processChart Sample.engineUnavailable Sample.blankPage = Throws EngineError
  /\ processChart Sample.engineUnavailable Sample.blankPage <> Returns []
  /\ processChart (mkEngine (Returns tt) (Throws EngineError) (Returns tt))
                  Sample.blankPage
     = Returns [].
Proof. split; [reflexivity | split; [discriminate | reflexivity]]. Qed.


(* ------------------------------------------------------------------ *)
(** * Further properties *)

(** ** Classifiers *)

Lemma isDigit_range (c : N) : JsString.isDigit c = true <-> (48 <= c <= 57)%N.
Proof.
  unfold JsString.isDigit. rewrite andb_true_iff, !N.leb_le. reflexivity.
Qed.

Lemma isDigit_not_letter (c : N) :
  JsString.isDigit c = true -> isLatinLetter c = false.
Proof.
  intros H. apply isDigit_range in H.
  destruct (isLatinLetter c) eqn:E; [|reflexivity].
  apply isLatinLetter_spec in E. lia.
Qed.

Lemma isDigit_not_space (c : N) :
  JsString.isDigit c = true -> JsString.isStrWhiteSpace c = false.
Proof.
  intros H. apply isDigit_range in H. unfold JsString.isStrWhiteSpace.
  repeat match goal with
         | |- context [(?a <=? ?b)%N] => destruct (N.leb_spec a b)
         | |- context [(?a =? ?b)%N] => destruct (N.eqb_spec a b)
         end; simpl; try reflexivity; lia.
Qed.

Lemma removeCommas_digits (s : JsString.t) :
  forallb JsString.isDigit s = true -> JsString.removeCommas s = s.
Proof.
  unfold JsString.removeCommas. induction s as [|c s IH]; [reflexivity|].
  cbn [forallb filter]. intros H. apply andb_true_iff in H as [Hc Hs].
  apply isDigit_range in Hc.
  destruct (N.eqb_spec c 44); [lia|]. cbn [negb]. now rewrite IH.
Qed.

Lemma digit_cases (c : N) :
  JsString.isDigit c = true ->
  (c = 48 \/ c = 49 \/ c = 50 \/ c = 51 \/ c = 52
   \/ c = 53 \/ c = 54 \/ c = 55 \/ c = 56 \/ c = 57)%N.
Proof. intros H. apply isDigit_range in H. lia. Qed.

(** A text that starts with a digit is a number to [parseFloat] and to
    [parseInt]. *)
Lemma parse_start_digit (c : N) (s : JsString.t) :
  JsString.isDigit c = true ->
  JsString.parseFloatIsNaN (c :: s) = false
  /\ JsString.parseInt (c :: s)
     = Some (JsString.digitsValue (JsString.leadingDigits (c :: s))).
Proof.
  intros H. apply digit_cases in H.
  repeat (destruct H as [-> | H]; [split; reflexivity|]).
  subst c. split; reflexivity.
Qed.

Lemma parseInt_eq (s : JsString.t) :
  JsString.parseInt s
  = match JsString.leadingDigits (afterSign (JsString.skipWhiteSpace s)) with
    | [] => None
    | ds => Some (if isMinus (JsString.skipWhiteSpace s)
                  then - JsString.digitsValue ds
                  else JsString.digitsValue ds)%Z
    end.
Proof.
  unfold JsString.parseInt.
  destruct (JsString.skipWhiteSpace s) as [|c r]; [reflexivity|].
  destruct c as [|p]; [reflexivity|].
  do 6 (destruct p as [p|p|]; try reflexivity).
Qed.

Lemma parseFloatIsNaN_eq (s : JsString.t) :
  JsString.parseFloatIsNaN s
  = negb (JsString.startsWith (afterSign (JsString.skipWhiteSpace s))
                              (JsString.of_ascii "Infinity")
          || match afterSign (JsString.skipWhiteSpace s) with
             | c :: r =>
                 JsString.isDigit c
                 || (c =? 46)%N
                    && match r with d :: _ => JsString.isDigit d | [] => false end
             | [] => false
             end).
Proof.
  unfold JsString.parseFloatIsNaN.
  destruct (JsString.skipWhiteSpace s) as [|c r]; [reflexivity|].
  destruct c as [|p]; [reflexivity|].
  do 6 (destruct p as [p|p|]; try reflexivity).
Qed.

Lemma parseInt_number (s : JsString.t) (n : Z) :
  JsString.parseInt s = Some n -> JsString.parseFloatIsNaN s = false.
Proof.
  rewrite parseInt_eq, parseFloatIsNaN_eq.
  destruct (afterSign (JsString.skipWhiteSpace s)) as [|c r];
    cbn [JsString.leadingDigits]; [discriminate|].
  destruct (JsString.isDigit c); [|discriminate].
  intros _. cbn [orb]. now rewrite orb_true_r.
Qed.

(** X1: the classification is not exclusive.  Every word [isYear]
    accepts, four digits, is also a number to [isNumber] and a month
    label to [isMonth]; and every word whose text [parseInt] reads, as
    the calibration requires, is a number to [isNumber]. *)
Theorem classifiers_overlap (word : OcrWord) :
  (isYear word = true -> isNumber word = true /\ isMonth word = true)
  /\ (parsable word = true -> isNumber word = true).
Proof.
  split.
  - unfold isYear. intros H. apply andb_true_iff in H as [Hl Hd].
    split.
    + unfold isNumber. rewrite (removeCommas_digits _ Hd).
      destruct (text word) as [|c s]; [discriminate|].
      cbn [forallb] in Hd. apply andb_true_iff in Hd as [Hc _].
      now rewrite (proj1 (@parse_start_digit c s Hc)).
    + unfold isMonth. rewrite cleanText_nil_of_no_letters; [reflexivity|].
      intros c Hc. apply isDigit_not_letter.
      rewrite forallb_forall in Hd. auto.
  - unfold parsable, isNumber.
    destruct (JsString.parseInt (JsString.removeCommas (text word))) eqn:E;
      [|discriminate].
    intros _. now rewrite (parseInt_number _ E).
Qed.

Lemma classifiers_overlap_witness :
  isNumber (Sample.ofText (JsString.of_ascii "2023")) = true
  /\ isMonth (Sample.ofText (JsString.of_ascii "2023")) = true.
Proof.
  apply (proj1 (classifiers_overlap (Sample.ofText (JsString.of_ascii "2023")))).
  reflexivity.
Defined.

(** ** Reading labels *)

Lemma leadingDigits_all (s : JsString.t) :
  forallb JsString.isDigit s = true ->
  JsString.leadingDigits s = map (fun c => (c - 48)%N) s.
Proof.
  induction s as [|c s IH]; [reflexivity|]. cbn [forallb map JsString.leadingDigits].
  intros H. apply andb_true_iff in H as [-> Hs]. now rewrite IH.
Qed.

Lemma ofNatAux_digits (fuel : nat) :
  forall (n : nat) (acc : JsString.t),
    (n < fuel)%nat ->
    forallb JsString.isDigit acc = true ->
    forallb JsString.isDigit (JsString.ofNatAux fuel n acc) = true
    /\ JsString.ofNatAux fuel n acc <> []
    /\ fold_left (fun a d => 10 * a + Z.of_N d)%Z
                 (map (fun c => (c - 48)%N) (JsString.ofNatAux fuel n acc)) 0%Z
       = fold_left (fun a d => 10 * a + Z.of_N d)%Z
                   (map (fun c => (c - 48)%N) acc) (Z.of_nat n).
Proof.
  induction fuel as [|fuel IH]; intros n acc Hn Hacc; [lia|].
  cbn [JsString.ofNatAux].
  assert (Hd : JsString.isDigit (48 + N.of_nat (n mod 10)) = true).
  { apply isDigit_range. pose proof (Nat.mod_upper_bound n 10). lia. }
  assert (Hacc' : forallb JsString.isDigit ((48 + N.of_nat (n mod 10))%N :: acc) = true)
    by (cbn [forallb]; now rewrite Hd, Hacc).
  assert (Hv : (48 + N.of_nat (n mod 10) - 48)%N = N.of_nat (n mod 10)) by lia.
  destruct (Nat.eqb_spec (n / 10) 0) as [E|E].
  - split; [exact Hacc'|]. split; [discriminate|].
    cbn [map fold_left]. rewrite Hv. f_equal.
    pose proof (Nat.div_mod_eq n 10). lia.
  - assert (Hlt : (n / 10 < fuel)%nat).
    { pose proof (Nat.div_mod_eq n 10). lia. }
    destruct (IH (n / 10)%nat _ Hlt Hacc') as (A & B & C).
    split; [exact A|]. split; [exact B|].
    rewrite C. cbn [map fold_left]. rewrite Hv. f_equal.
    pose proof (Nat.div_mod_eq n 10). lia.
Qed.

Lemma parseInt_ofNat (n : nat) :
  JsString.parseInt (JsString.ofNat n) = Some (Z.of_nat n).
Proof.
  destruct (@ofNatAux_digits (S n) n [] (Nat.lt_succ_diag_r n) eq_refl)
    as (A & B & C).
  unfold JsString.ofNat. destruct (JsString.ofNatAux (S n) n []) as [|c s] eqn:E;
    [contradiction|].
  pose proof A as A'. cbn [forallb] in A'. apply andb_true_iff in A' as [Hc _].
  rewrite (proj2 (@parse_start_digit c s Hc)), (leadingDigits_all _ A).
  unfold JsString.digitsValue. rewrite C. reflexivity.
Qed.

(** X2: a label that shows a natural number of at most [2 ^ 53] in
    decimal, with commas put anywhere in it, is read by the calibration
    as that number, which is a binary64 number. *)
Theorem label_with_commas_reads (n : nat) (s : JsString.t) :
  (Z.of_nat n <= 2 ^ 53)%Z ->
  JsString.removeCommas s = JsString.ofNat n ->
  JsString.parseInt (JsString.removeCommas s) = Some (Z.of_nat n)
  /\ Double.ofZ (Z.of_nat n) = Num.ofZ (Z.of_nat n).
Proof.
  intros Hn ->. split; [apply parseInt_ofNat|].
  unfold Double.ofZ, Num.ofZ. apply round_Z. lia.
Qed.

Lemma label_with_commas_reads_witness :
  JsString.parseInt (JsString.removeCommas (JsString.of_ascii "1,200"))
  = Some 1200%Z
  /\ Double.ofZ 1200 = Num.ofZ 1200.
Proof.
  apply (@label_with_commas_reads 1200 (JsString.of_ascii "1,200")).
  - vm_compute. intros H. discriminate H.
  - vm_compute. reflexivity.
Defined.

(* ------------------------------------------------------------------ *)
(** ** Sorted lists *)

Section SortedFacts.
Variable A : Type.
Variable cmp : A -> A -> Q.
Variable key : A -> Q.
Hypothesis cmp_key : forall a b, cmp a b == key a - key b.

(** Sorting a list that is ascending already gives it back. *)
Lemma sortBy_ascending (l : list A) :
  StronglySorted (fun a b => key a <= key b) l -> sortBy cmp l = l.
Proof.
  induction 1 as [|a l Hs IH Hall]; [reflexivity|].
  cbn [sortBy fold_right]. fold (sortBy cmp l). rewrite IH.
  destruct l as [|b l]; [reflexivity|]. cbn [insertSorted].
  assert (Hab : key a <= key b) by (rewrite Forall_forall in Hall; apply Hall; now left).
  assert (G : Qltb 0 (cmp a b) = false) by (apply Qltb_ge; rewrite cmp_key; lra).
  now rewrite G.
Qed.
End SortedFacts.

Lemma StronglySorted_suffix {A : Type} (R : A -> A -> Prop) (l1 l2 : list A) :
  StronglySorted R (l1 ++ l2) -> StronglySorted R l2.
Proof.
  induction l1 as [|a l1 IH]; [auto|]. cbn [app]. intros H.
  apply StronglySorted_inv in H as [H _]. auto.
Qed.

Lemma StronglySorted_filter {A : Type} (R : A -> A -> Prop) (f : A -> bool)
      (l : list A) :
  StronglySorted R l -> StronglySorted R (filter f l).
Proof.
  induction 1 as [|a l Hs IH Hall]; cbn [filter]; [constructor|].
  destruct (f a); [|exact IH]. constructor; [exact IH|].
  rewrite Forall_forall in *. intros x Hx. apply filter_In in Hx as [Hx _]. auto.
Qed.

Lemma byX0_key (a b : OcrWord) : byX0 a b == leftEdge a - leftEdge b.
Proof. reflexivity. Qed.

Lemma potentialMonths_sorted (words : list OcrWord) :
  StronglySorted (fun a b => leftEdge a <= leftEdge b) (potentialMonths words).
Proof. apply (sortBy_sorted byX0 leftEdge byX0_key). Qed.

Lemma potentialMonths_In (words : list OcrWord) (v : OcrWord) :
  In v (potentialMonths words) <-> In v words /\ isMonth v = true.
Proof.
  unfold potentialMonths. rewrite <- filter_In.
  split; apply Permutation_in; [|symmetry]; apply sortBy_perm.
Qed.

Lemma potentialYAxis_In (words : list OcrWord) (v : OcrWord) :
  In v (potentialYAxis words) <-> In v words /\ isNumber v = true.
Proof.
  unfold potentialYAxis. rewrite <- filter_In.
  split; apply Permutation_in; [|symmetry]; apply sortBy_perm.
Qed.

Lemma potentialYAxis_sorted (words : list OcrWord) :
  StronglySorted (fun a b => y0 (bbox b) <= y0 (bbox a)) (potentialYAxis words).
Proof.
  apply StronglySorted_weaken
    with (R := fun a b => - y0 (bbox a) <= - y0 (bbox b)); [intros a b; lra|].
  apply (sortBy_sorted (fun a b => y0 (bbox b) - y0 (bbox a))
                       (fun a => - y0 (bbox a))).
  intros a b. ring.
Qed.

(** The month group met at a position of the sorted month words is
    ascending already: sorting it again changes nothing. *)
Lemma monthGroup_resorted (words before : list OcrWord) (m : OcrWord)
      (later : list OcrWord) :
  potentialMonths words = before ++ m :: later ->
  sortBy byX0 (monthGroupOf m later) = monthGroupOf m later.
Proof.
  intros E. apply (sortBy_ascending byX0 leftEdge byX0_key).
  pose proof (potentialMonths_sorted words) as S. rewrite E in S.
  apply StronglySorted_suffix in S. apply StronglySorted_inv in S as [S1 S2].
  unfold monthGroupOf. constructor.
  - now apply StronglySorted_filter.
  - rewrite Forall_forall in *. intros x Hx. apply filter_In in Hx as [Hx _]. auto.
Qed.

(* ------------------------------------------------------------------ *)
(** ** The candidates of the finder *)

(** What a turn of the loop that pushes a candidate puts into it. *)
Lemma visitMonth_pushed (words : list OcrWord) (m : OcrWord) (later : list OcrWord)
      (candidates : list Candidate.t) (chartId : nat) (c : Candidate.t) :
  visitMonth words m later (candidates, chartId) = (candidates ++ [c], S chartId) ->
  accepted words m later candidates = true
  /\ Candidate.id c = chartId
  /\ Candidate.months c = sortBy byX0 (monthGroupOf m later)
  /\ Candidate.yAxis c
     = associatedYAxisOf words (sortBy byX0 (monthGroupOf m later)) m
  /\ Candidate.title c = []
  /\ Candidate.legend c
     = sortBy byX0
         (filter (fun l => distanceLt (getCenter (bbox l))
                                      (chartCenterOf (Candidate.bounds c)) 300)
                 (potentialLegends words))
  /\ Candidate.unit c
     = find (fun u => distanceLt (getCenter (bbox u))
                                 (mkPoint (x0 (Candidate.bounds c))
                                          (py (chartCenterOf (Candidate.bounds c))))
                                 100)
            (potentialUnits words).
Proof.
  unfold accepted, visitMonth, owned.
  change (hd m (monthGroupOf m later)) with m.
  destruct ((3 <? List.length (monthGroupOf m later))%nat
            && negb (existsb (fun c => includes (Candidate.months c) m) candidates)).
  - rewrite andb_true_l.
    destruct (1 <? List.length
                     (associatedYAxisOf words (sortBy byX0 (monthGroupOf m later)) m))%nat.
    + intros H. injection H as H. apply app_inv_head in H.
      injection H as <-. repeat split.
    + intros H. injection H as _ H. lia.
  - intros H. injection H as _ H. lia.
Qed.

Lemma clusterFrom_pushedBy (words pending : list OcrWord) :
  forall (visited : list OcrWord) (st : list Candidate.t * nat),
    potentialMonths words = visited ++ pending ->
    Forall (pushedBy words) (fst st) ->
    Forall (pushedBy words) (fst (clusterFrom words pending st)).
Proof.
  induction pending as [|m later IH]; intros visited [candidates chartId] E H;
    cbn [clusterFrom]; [exact H|].
  apply (IH (visited ++ [m])).
  - rewrite E, <- app_assoc. reflexivity.
  - pose proof (visitMonth_cases words m later candidates chartId) as C.
    destruct (accepted words m later candidates); [|now rewrite C].
    destruct C as (c & Ev & _). rewrite Ev. cbn [fst].
    apply Forall_app. split; [exact H|].
    constructor; [|constructor]. exists visited, m, later, candidates, chartId. auto.
Qed.

Lemma findChartCandidates_pushedBy (words : list OcrWord) (c : Candidate.t) :
  In c (findChartCandidates words) -> pushedBy words c.
Proof.
  intros Hc. unfold findChartCandidates in Hc.
  assert (F : Forall (pushedBy words)
                (fst (clusterFrom words (potentialMonths words) ([], O))))
    by (apply (@clusterFrom_pushedBy words _ []); [reflexivity | constructor]).
  rewrite Forall_forall in F. auto.
Qed.

(** X3: the months of a returned candidate are month-classified words of
    the input, in ascending order of their left edge, and every one after
    the first is horizontally aligned with the first within 10 pixels. *)
Theorem candidate_months (words : list OcrWord) (c : Candidate.t) :
  In c (findChartCandidates words) ->
  (forall v, In v (Candidate.months c) -> In v words /\ isMonth v = true)
  /\ StronglySorted (fun a b => leftEdge a <= leftEdge b) (Candidate.months c)
  /\ exists m rest,
      Candidate.months c = m :: rest
      /\ forall v, In v rest -> isHorizontallyAligned m v 10 = true.
Proof.
  intros Hc. destruct (findChartCandidates_pushedBy _ _ Hc)
    as (before & m & later & candidates & chartId & E & Ev).
  destruct (visitMonth_pushed _ _ _ _ _ Ev) as (_ & _ & Hm & _).
  rewrite (monthGroup_resorted _ _ _ _ E) in Hm. rewrite Hm.
  assert (Hsub : forall v, In v (monthGroupOf m later) -> In v (potentialMonths words)).
  { intros v [<-|Hv]; rewrite E; apply in_or_app; right; [now left|].
    right. apply filter_In in Hv. tauto. }
  split; [|split].
  - intros v Hv. apply potentialMonths_In. auto.
  - rewrite <- (monthGroup_resorted _ _ _ _ E).
    apply (sortBy_sorted byX0 leftEdge byX0_key).
  - exists m, (filter (fun mj => isHorizontallyAligned m mj 10) later).
    split; [reflexivity|]. intros v Hv. apply filter_In in Hv. tauto.
Qed.

Lemma candidate_months_witness :
  exists c,
    In c (findChartCandidates Sample.oneChart)
    /\ StronglySorted (fun a b => leftEdge a <= leftEdge b) (Candidate.months c).
Proof.
  eexists. split; [vm_compute; left; reflexivity|].
  refine (proj1 (proj2 (@candidate_months Sample.oneChart _ _))).
  vm_compute. left. reflexivity.
Defined.

(** X4: the y-axis labels of a returned candidate are number-classified
    words of the input; each ends strictly left of the left edge of the
    first month and is vertically aligned with that month within 30
    pixels; they are ordered bottom up (descending top edge). *)
Theorem candidate_yAxis (words : list OcrWord) (c : Candidate.t) :
  In c (findChartCandidates words) ->
  StronglySorted (fun a b => y0 (bbox b) <= y0 (bbox a)) (Candidate.yAxis c)
  /\ exists m rest,
      Candidate.months c = m :: rest
      /\ forall v, In v (Candidate.yAxis c) ->
                   In v words /\ isNumber v = true
                   /\ x1 (bbox v) < leftEdge m
                   /\ isVerticallyAligned v m 30 = true.
Proof.
  intros Hc. destruct (findChartCandidates_pushedBy _ _ Hc)
    as (before & m & later & candidates & chartId & E & Ev).
  destruct (visitMonth_pushed _ _ _ _ _ Ev) as (_ & _ & Hm & Hy & _).
  rewrite (monthGroup_resorted _ _ _ _ E) in Hm, Hy.
  unfold associatedYAxisOf in Hy. cbn [monthGroupOf hd] in Hy.
  split.
  - rewrite Hy. apply StronglySorted_filter, potentialYAxis_sorted.
  - exists m, (filter (fun mj => isHorizontallyAligned m mj 10) later).
    split; [exact Hm|]. intros v Hv. rewrite Hy in Hv.
    apply filter_In in Hv as [Hin Hf]. apply andb_true_iff in Hf as [Ha Hl].
    apply potentialYAxis_In in Hin as [Hw Hn]. apply Qltb_lt in Hl.
    repeat split; assumption.
Qed.

Lemma candidate_yAxis_witness :
  exists c,
    In c (findChartCandidates Sample.oneChart)
    /\ StronglySorted (fun a b => y0 (bbox b) <= y0 (bbox a)) (Candidate.yAxis c).
Proof.
  eexists. split; [vm_compute; left; reflexivity|].
  refine (proj1 (@candidate_yAxis Sample.oneChart _ _)).
  vm_compute. left. reflexivity.
Defined.

(** X5: a returned candidate has no title words; its legend is made of
    year-classified words of the input within 300 pixels of the centre of
    its bounds, in ascending order of their left edge; its unit, when it
    has one, is a unit-classified word of the input within 100 pixels of
    the left edge of the bounds at the height of their centre. *)
Theorem candidate_legend_unit (words : list OcrWord) (c : Candidate.t) :
  In c (findChartCandidates words) ->
  Candidate.title c = []
  /\ (forall l, In l (Candidate.legend c) ->
                In l words /\ isYear l = true
                /\ distanceSq (getCenter (bbox l))
                              (chartCenterOf (Candidate.bounds c)) < 300 * 300)
  /\ StronglySorted (fun a b => leftEdge a <= leftEdge b) (Candidate.legend c)
  /\ (forall u, Candidate.unit c = Some u ->
                In u words /\ isUnit u = true
                /\ distanceSq (getCenter (bbox u))
                              (mkPoint (x0 (Candidate.bounds c))
                                       (py (chartCenterOf (Candidate.bounds c))))
                   < 100 * 100).
Proof.
  intros Hc. destruct (findChartCandidates_pushedBy _ _ Hc)
    as (before & m & later & candidates & chartId & E & Ev).
  destruct (visitMonth_pushed _ _ _ _ _ Ev) as (_ & _ & _ & _ & Ht & Hl & Hu).
  split; [exact Ht|]. split; [|split].
  - intros l Hin. rewrite Hl in Hin.
    apply (Permutation_in _ (sortBy_perm byX0 _)) in Hin.
    apply filter_In in Hin as [Hin Hd]. unfold potentialLegends in Hin.
    apply filter_In in Hin as [Hw Hy]. apply Qltb_lt in Hd. auto.
  - rewrite Hl. apply (sortBy_sorted byX0 leftEdge byX0_key).
  - intros u Hs. rewrite Hu in Hs. apply find_some in Hs as [Hin Hd].
    unfold potentialUnits in Hin. apply filter_In in Hin as [Hw Hy].
    apply Qltb_lt in Hd. auto.
Qed.

Lemma candidate_legend_unit_witness :
  exists c,
    In c (findChartCandidates Sample.oneChart) /\ Candidate.title c = [].
Proof.
  eexists. split; [vm_compute; left; reflexivity|].
  refine (proj1 (@candidate_legend_unit Sample.oneChart _ _)).
  vm_compute. left. reflexivity.
Defined.

Lemma clusterFrom_ids (words pending : list OcrWord) :
  forall st : list Candidate.t * nat,
    map Candidate.id (fst st) = seq 0 (snd st) ->
    map Candidate.id (fst (clusterFrom words pending st))
    = seq 0 (snd (clusterFrom words pending st)).
Proof.
  induction pending as [|m later IH]; intros [candidates chartId] H;
    cbn [clusterFrom]; [exact H|].
  apply IH.
  pose proof (visitMonth_cases words m later candidates chartId) as C.
  destruct (accepted words m later candidates); [|now rewrite C].
  destruct C as (c & -> & Hid & _). cbn [fst snd] in *.
  rewrite map_app, H, seq_S. cbn [map]. rewrite Hid. reflexivity.
Qed.

(** X6: the candidates are numbered in the order they are returned: the
    [id] of the candidate at position [i] is [i]. *)
Theorem candidate_ids (words : list OcrWord) :
  map Candidate.id (findChartCandidates words)
  = seq 0 (List.length (findChartCandidates words)).
Proof.
  unfold findChartCandidates.
  pose proof (clusterFrom_ids words (potentialMonths words) ([], O) eq_refl) as H.
  rewrite H. f_equal.
  rewrite <- (length_map Candidate.id), H, length_seq. reflexivity.
Qed.

Lemma snoc_split {A : Type} (l p r : list A) (a b : A) :
  l ++ [a] = p ++ b :: r ->
  (r = [] /\ p = l /\ b = a) \/ (exists r', r = r' ++ [a] /\ l = p ++ b :: r').
Proof.
  destruct r as [|x r] using rev_ind.
  - intros H. apply app_inj_tail in H as [-> ->]. auto.
  - clear IHr. intros H. right. exists r.
    change (l ++ [a] = p ++ (b :: r) ++ [x]) in H. rewrite app_assoc in H.
    apply app_inj_tail in H as [-> ->]. auto.
Qed.

Lemma clusterFrom_leaders (words pending : list OcrWord) :
  forall (visited : list OcrWord) (st : list Candidate.t * nat),
    potentialMonths words = visited ++ pending ->
    (forall p c r, fst st = p ++ c :: r ->
                   exists m rest, Candidate.months c = m :: rest
                                  /\ owned m p = false) ->
    forall p c r,
      fst (clusterFrom words pending st) = p ++ c :: r ->
      exists m rest, Candidate.months c = m :: rest /\ owned m p = false.
Proof.
  induction pending as [|m later IH]; intros visited [candidates chartId] E H;
    cbn [clusterFrom]; [exact H|].
  apply (IH (visited ++ [m])).
  - rewrite E, <- app_assoc. reflexivity.
  - pose proof (visitMonth_cases words m later candidates chartId) as C.
    destruct (accepted words m later candidates) eqn:Acc; [|now rewrite C].
    destruct C as (c & Ev & _ & Hm & _). rewrite Ev. cbn [fst] in *.
    intros p c' r Hs. apply snoc_split in Hs as [(-> & -> & ->)|(r' & -> & Hs)].
    + rewrite (monthGroup_resorted _ _ _ _ E) in Hm.
      exists m, (filter (fun mj => isHorizontallyAligned m mj 10) later).
      split; [exact Hm|].
      unfold accepted in Acc. apply andb_true_iff in Acc as [Acc _].
      apply andb_true_iff in Acc as [_ Acc]. now apply negb_true_iff in Acc.
    + eapply H. exact Hs.
Qed.

(** X7: what the first-found test guarantees: the first month of a
    returned candidate is a month of no candidate returned before it. *)
Theorem candidate_leader_unowned
        (words : list OcrWord) (p : list Candidate.t) (c : Candidate.t)
        (r : list Candidate.t) :
  findChartCandidates words = p ++ c :: r ->
  exists m rest, Candidate.months c = m :: rest /\ owned m p = false.
Proof.
  unfold findChartCandidates.
  apply (@clusterFrom_leaders words (potentialMonths words) [] ([], O) eq_refl).
  intros p' c' r' H. destruct p'; discriminate.
Qed.

Lemma candidate_leader_unowned_witness :
  exists c1 c2 m rest,
    findChartCandidates Sample.overlappingRows = [c1; c2]
    /\ Candidate.months c2 = m :: rest /\ owned m [c1] = false.
Proof.
  destruct (@candidate_leader_unowned Sample.overlappingRows
              [hd Sample.stuckCandidate (findChartCandidates Sample.overlappingRows)]
              (last (findChartCandidates Sample.overlappingRows) Sample.stuckCandidate)
              [])
    as (m & rest & Hm & Ho); [vm_compute; reflexivity|].
  do 4 eexists. split; [vm_compute; reflexivity|]. split; [exact Hm | exact Ho].
Defined.

Lemma few_words_no_candidate (words : list OcrWord) :
  (List.length (filter isMonth words) < 4)%nat
  \/ (List.length (filter isNumber words) < 2)%nat ->
  findChartCandidates words = [].
Proof.
  intros H. destruct (findChartCandidates words) as [|c rest] eqn:R; [reflexivity|].
  exfalso.
  assert (Hc : In c (findChartCandidates words)) by (rewrite R; now left).
  destruct (findChartCandidates_pushedBy _ _ Hc)
    as (before & m & later & candidates & chartId & E & Ev).
  destruct (visitMonth_pushed _ _ _ _ _ Ev) as (Acc & _).
  unfold accepted in Acc. apply andb_true_iff in Acc as [Acc A1].
  apply andb_true_iff in Acc as [A3 _]. apply Nat.ltb_lt in A1, A3.
  assert (L3 : (List.length (monthGroupOf m later)
                <= List.length (filter isMonth words))%nat).
  { rewrite <- (sortBy_length byX0 (filter isMonth words)).
    fold (potentialMonths words). rewrite E, length_app.
    unfold monthGroupOf. cbn [List.length].
    pose proof (filter_length_le (fun mj => isHorizontallyAligned m mj 10) later).
    lia. }
  assert (L1 : (List.length
                  (associatedYAxisOf words (sortBy byX0 (monthGroupOf m later)) m)
                <= List.length (filter isNumber words))%nat).
  { unfold associatedYAxisOf.
    etransitivity; [apply filter_length_le|].
    unfold potentialYAxis. now rewrite sortBy_length. }
  lia.
Qed.

(** X8: on a page with fewer than four month-classified words, or with
    fewer than two number-classified words, no candidate is found. *)
Theorem too_few_words_no_candidate (words : list OcrWord) :
  (List.length (filter isMonth words) < 4)%nat
  \/ (List.length (filter isNumber words) < 2)%nat ->
  findChartCandidates words = [].
Proof. apply few_words_no_candidate. Qed.

Lemma too_few_words_no_candidate_witness :
  findChartCandidates Sample.floorAxis = [].
Proof.
  apply too_few_words_no_candidate. left. vm_compute. lia.
Defined.

Lemma freshWordsFrom_oids (ws : list OcrWord) :
  forall next, map oid (freshWordsFrom next ws) = seq next (List.length ws).
Proof.
  induction ws as [|v ws IH]; intros next; [reflexivity|].
  cbn [freshWordsFrom map List.length seq oid]. now rewrite IH.
Qed.

Lemma NoDup_oid_filter (f : OcrWord -> bool) (l : list OcrWord) :
  NoDup (map oid l) -> NoDup (map oid (filter f l)).
Proof.
  induction l as [|a l IH]; [auto|]. cbn [map filter]. intros H.
  apply NoDup_cons_iff in H as [Hn Hd]. destruct (f a); [|auto].
  cbn [map]. constructor; [|auto]. intros Hin. apply Hn.
  apply in_map_iff in Hin as (x & Hx & Hin). apply filter_In in Hin as [Hin _].
  apply in_map_iff. eauto.
Qed.

Lemma NoDup_oid_sortBy (cmp : OcrWord -> OcrWord -> Q) (l : list OcrWord) :
  NoDup (map oid l) -> NoDup (map oid (sortBy cmp l)).
Proof.
  apply Permutation_NoDup, Permutation_map. symmetry. apply sortBy_perm.
Qed.

Lemma candidate_words_distinct_gen (words : list OcrWord) (c : Candidate.t) :
  NoDup (map oid words) ->
  In c (findChartCandidates words) ->
  NoDup (map oid (Candidate.months c))
  /\ NoDup (map oid (Candidate.yAxis c))
  /\ NoDup (map oid (Candidate.legend c)).
Proof.
  intros Hw Hc. destruct (findChartCandidates_pushedBy _ _ Hc)
    as (before & m & later & candidates & chartId & E & Ev).
  destruct (visitMonth_pushed _ _ _ _ _ Ev) as (_ & _ & Hm & Hy & _ & Hl & _).
  rewrite Hm, Hy, Hl. split; [|split].
  - apply NoDup_oid_sortBy.
    assert (S : NoDup (map oid (potentialMonths words)))
      by (apply NoDup_oid_sortBy, NoDup_oid_filter, Hw).
    rewrite E, map_app in S. apply NoDup_app_remove_l in S.
    cbn [map] in S. apply NoDup_cons_iff in S as [Hn Hd].
    unfold monthGroupOf. cbn [map]. constructor.
    + intros Hin. apply Hn. apply in_map_iff in Hin as (x & Hx & Hin).
      apply filter_In in Hin as [Hin _]. apply in_map_iff. eauto.
    + now apply NoDup_oid_filter.
  - unfold associatedYAxisOf. apply NoDup_oid_filter.
    apply NoDup_oid_sortBy, NoDup_oid_filter, Hw.
  - apply NoDup_oid_sortBy, NoDup_oid_filter, NoDup_oid_filter, Hw.
Qed.

(** X9: [processChart] gives every recognised word an identity of its
    own, and on such words no word is counted twice among the months, the
    y-axis labels or the legend of a candidate. *)
Theorem candidate_words_distinct (data : Recognized) (c : Candidate.t) :
  In c (findChartCandidates (freshWordsFrom 0 (flattenWords data))) ->
  NoDup (map oid (Candidate.months c))
  /\ NoDup (map oid (Candidate.yAxis c))
  /\ NoDup (map oid (Candidate.legend c)).
Proof.
  apply candidate_words_distinct_gen. rewrite freshWordsFrom_oids. apply seq_NoDup.
Qed.

Lemma candidate_words_distinct_witness :
  exists c,
    In c (findChartCandidates
            (freshWordsFrom 0 (flattenWords (Some [Some [Some [Some Sample.oneChart]]]))))
    /\ NoDup (map oid (Candidate.months c)).
Proof.
  eexists. split; [vm_compute; left; reflexivity|].
  refine (proj1 (@candidate_words_distinct
                   (Some [Some [Some [Some Sample.oneChart]]]) _ _)).
  vm_compute. left. reflexivity.
Defined.

(* ------------------------------------------------------------------ *)
(** ** The guard of the finder *)

Lemma includes_In (l : list OcrWord) (m : OcrWord) :
  includes l m = true -> exists v, In v l /\ oid v = oid m.
Proof.
  unfold includes. intros H. apply existsb_exists in H as (v & Hv & E).
  apply Nat.eqb_eq in E. eauto.
Qed.

Lemma NoDup_oid_inj (l : list OcrWord) (a b : OcrWord) :
  NoDup (map oid l) -> In a l -> In b l -> oid a = oid b -> a = b.
Proof.
  induction l as [|x l IH]; [contradiction|]. cbn [map]. intros H.
  apply NoDup_cons_iff in H as [Hn Hd].
  intros [<-|Ha] [<-|Hb] E; auto.
  - exfalso. apply Hn. rewrite E. now apply in_map.
  - exfalso. apply Hn. rewrite <- E. now apply in_map.
Qed.

Lemma filter_Permutation {A : Type} (f : A -> bool) (l l' : list A) :
  Permutation l l' -> Permutation (filter f l) (filter f l').
Proof.
  induction 1 as [|x l l' _ IH|x y l|l l' l'' _ IH1 _ IH2]; cbn [filter].
  - constructor.
  - destruct (f x); [now constructor | exact IH].
  - destruct (f x), (f y); try apply Permutation_refl. apply perm_swap.
  - now transitivity (filter f l').
Qed.

Lemma filter_both {A : Type} (f g : A -> bool) (l : list A) :
  filter g (filter f l) = filter (fun v => f v && g v) l.
Proof.
  induction l as [|a l IH]; [reflexivity|]. cbn [filter].
  destruct (f a); cbn [filter andb]; [|exact IH].
  destruct (g a); now rewrite IH.
Qed.

(** The labels the finder associates with a leading word are the number
    words of the page left of it and in line with it. *)
Lemma associated_labels (words : list OcrWord) (m : OcrWord) :
  Permutation
    (filter (fun v => isVerticallyAligned v m 30 && Qltb (x1 (bbox v)) (x0 (bbox m)))
            (potentialYAxis words))
    (filter (fun v => isNumber v
                      && (isVerticallyAligned v m 30
                          && Qltb (x1 (bbox v)) (x0 (bbox m))))
            words).
Proof.
  rewrite <- (filter_both isNumber
                (fun v => isVerticallyAligned v m 30
                          && Qltb (x1 (bbox v)) (x0 (bbox m))) words).
  apply filter_Permutation. unfold potentialYAxis. apply sortBy_perm.
Qed.

(** A returned candidate is made of the word at some position of the
    sorted month words with the later words aligned with it, and of the
    labels left of that word and in line with it. *)
Lemma candidate_from_group (words : list OcrWord) (c : Candidate.t) :
  In c (findChartCandidates words) ->
  (3 < List.length (Candidate.months c))%nat
  /\ (2 <= List.length (Candidate.yAxis c))%nat
  /\ exists before m later,
      potentialMonths words = before ++ m :: later
      /\ Candidate.months c
         = m :: filter (fun v => isHorizontallyAligned m v 10) later
      /\ Candidate.yAxis c
         = filter (fun v => isVerticallyAligned v m 30
                            && Qltb (x1 (bbox v)) (x0 (bbox m)))
                  (potentialYAxis words).
Proof.
  intros Hc. destruct (findChartCandidates_pushedBy _ _ Hc)
    as (before & m & later & candidates & chartId & E & Ev).
  destruct (visitMonth_pushed _ _ _ _ _ Ev) as (Acc & _ & Hm & Hy & _).
  unfold accepted in Acc. apply andb_true_iff in Acc as [Acc A1].
  apply andb_true_iff in Acc as [A3 _]. apply Nat.ltb_lt in A1, A3.
  rewrite <- Hy in A1.
  rewrite (monthGroup_resorted _ _ _ _ E) in Hm, Hy.
  unfold associatedYAxisOf in Hy. cbn [monthGroupOf hd] in Hy.
  split; [now rewrite Hm|]. split; [lia|].
  exists before, m, later. auto.
Qed.

(** The candidates found while the words [before] are visited are led by
    words of [before]. *)
Lemma stateAt_leaders (words : list OcrWord) :
  forall (before visited tail : list OcrWord) (st : list Candidate.t * nat),
    potentialMonths words = visited ++ before ++ tail ->
    (forall c, In c (fst st) ->
               exists b rest, In b visited /\ Candidate.months c = b :: rest) ->
    forall c, In c (fst (stateAt words before tail st)) ->
              exists b rest,
                In b (visited ++ before) /\ Candidate.months c = b :: rest.
Proof.
  induction before as [|b bs IH]; intros visited tail [candidates chartId] E H c Hc.
  - rewrite app_nil_r. cbn [stateAt] in Hc. auto.
  - cbn [stateAt] in Hc.
    assert (E' : potentialMonths words = (visited ++ [b]) ++ bs ++ tail)
      by (rewrite E, <- app_assoc; reflexivity).
    assert (Hinv : forall c0,
               In c0 (fst (visitMonth words b (bs ++ tail) (candidates, chartId))) ->
               exists b0 rest,
                 In b0 (visited ++ [b]) /\ Candidate.months c0 = b0 :: rest).
    { pose proof (visitMonth_cases words b (bs ++ tail) candidates chartId) as C.
      destruct (accepted words b (bs ++ tail) candidates).
      - destruct C as (c' & -> & _ & Hm' & _). cbn [fst].
        intros c0 Hc0. apply in_app_or in Hc0 as [Hc0|[<-|[]]].
        + destruct (H c0 Hc0) as (b0 & rest & Hb0 & Hm0).
          exists b0, rest. split; [apply in_or_app; now left | exact Hm0].
        + rewrite (monthGroup_resorted words visited b (bs ++ tail) E) in Hm'.
          exists b, (filter (fun mj => isHorizontallyAligned b mj 10) (bs ++ tail)).
          split; [apply in_or_app; right; now left | exact Hm'].
      - rewrite C. cbn [fst]. intros c0 Hc0.
        destruct (H c0 Hc0) as (b0 & rest & Hb0 & Hm0).
        exists b0, rest. split; [apply in_or_app; now left | exact Hm0]. }
    destruct (IH (visited ++ [b]) tail _ E' Hinv c Hc) as (b' & rest & Hb & Hm).
    exists b', rest. split; [|exact Hm].
    rewrite <- app_assoc in Hb. exact Hb.
Qed.

(** C4, as amended: every candidate [findChartCandidates] returns has
    more than three months and at least two y-axis labels.  The month
    words of the page, in ascending order of their left edge, hold a word
    [m] such that the months of the candidate are [m] and the later ones
    whose centre row is within 10 pixels of that of [m], and its labels
    are the number words of the page that end left of [m] and whose
    centre column is within 30 pixels of that of [m].  So a group of
    three words or fewer is the months of no candidate, and a word with
    at most one such label leads no candidate.  And on words that are
    distinct objects, a word with three or more later words in line and
    two or more such labels leads a candidate made of them, provided no
    candidate led by an earlier word holds it already. *)
Theorem findChartCandidates_invariants (words : list OcrWord) :
  (forall c,
      In c (findChartCandidates words) ->
      (3 < List.length (Candidate.months c))%nat
      /\ (2 <= List.length (Candidate.yAxis c))%nat
      /\ exists before m later,
          potentialMonths words = before ++ m :: later
          /\ Permutation (before ++ m :: later) (filter isMonth words)
          /\ StronglySorted (fun a b => x0 (bbox a) <= x0 (bbox b))
                            (before ++ m :: later)
          /\ Candidate.months c
             = m :: filter (fun v => isHorizontallyAligned m v 10) later
          /\ Permutation
               (Candidate.yAxis c)
               (filter (fun v => isNumber v
                                 && (isVerticallyAligned v m 30
                                     && Qltb (x1 (bbox v)) (x0 (bbox m))))
                       words))
  /\ (forall m later c,
         (List.length (filter (fun v => isHorizontallyAligned m v 10) later) <= 2)%nat ->
         In c (findChartCandidates words) ->
         Candidate.months c
         <> m :: filter (fun v => isHorizontallyAligned m v 10) later)
  /\ (forall m rest c,
         (List.length
            (filter (fun v => isNumber v
                              && (isVerticallyAligned v m 30
                                  && Qltb (x1 (bbox v)) (x0 (bbox m))))
                    words) <= 1)%nat ->
         In c (findChartCandidates words) ->
         Candidate.months c <> m :: rest)
  /\ (forall before m later,
         NoDup (map oid words) ->
         potentialMonths words = before ++ m :: later ->
         (3 <= List.length (filter (fun v => isHorizontallyAligned m v 10) later))%nat ->
         (2 <= List.length
                 (filter (fun v => isNumber v
                                   && (isVerticallyAligned v m 30
                                       && Qltb (x1 (bbox v)) (x0 (bbox m))))
                         words))%nat ->
         (forall c' b rest,
             In c' (findChartCandidates words) ->
             Candidate.months c' = b :: rest -> In b before -> ~ In m rest) ->
         exists c,
           In c (findChartCandidates words)
           /\ Candidate.months c
              = m :: filter (fun v => isHorizontallyAligned m v 10) later
           /\ Permutation
                (Candidate.yAxis c)
                (filter (fun v => isNumber v
                                  && (isVerticallyAligned v m 30
                                      && Qltb (x1 (bbox v)) (x0 (bbox m))))
                        words)).
Proof.
  split; [|split; [|split]].
  - intros c Hc.
    destruct (candidate_from_group _ _ Hc)
      as (H3 & H2 & before & m & later & E & Hm & Hy).
    split; [exact H3|]. split; [exact H2|].
    exists before, m, later. split; [exact E|]. split; [|split; [|split]].
    + rewrite <- E. unfold potentialMonths. apply sortBy_perm.
    + rewrite <- E. apply potentialMonths_sorted.
    + exact Hm.
    + rewrite Hy. apply associated_labels.
  - intros m later c Hl Hc Hm.
    destruct (candidate_from_group _ _ Hc) as (H3 & _).
    rewrite Hm in H3. cbn [List.length] in H3. lia.
  - intros m rest c Hl Hc Hm.
    destruct (candidate_from_group _ _ Hc)
      as (_ & H2 & before & m' & later & _ & Hm' & Hy).
    rewrite Hm in Hm'. injection Hm' as -> _. rewrite Hy in H2.
    rewrite (Permutation_length (associated_labels words m')) in H2. lia.
  - intros before m later Hd E H3 H2 Hun.
    rewrite <- (Permutation_length (associated_labels words m)) in H2.
    assert (Ho : owned m (fst (stateAt words before (m :: later) ([], O))) = false).
    { destruct (owned m (fst (stateAt words before (m :: later) ([], O)))) eqn:Ho;
        [exfalso|reflexivity].
      unfold owned in Ho. apply existsb_exists in Ho as (c' & Hc' & Hi).
      apply includes_In in Hi as (v & Hv & Eo).
      assert (Hres : In c' (findChartCandidates words)).
      { unfold findChartCandidates. rewrite E, clusterFrom_app.
        apply clusterFrom_keeps. exact Hc'. }
      destruct (@stateAt_leaders words before [] (m :: later) ([], O) E)
        with (c := c') as (b & rest & Hb & Hm); [intros c0 []| exact Hc' |].
      cbn [app] in Hb.
      assert (Sd : NoDup (map oid (potentialMonths words)))
        by (apply NoDup_oid_sortBy, NoDup_oid_filter, Hd).
      assert (Hmw : In m (potentialMonths words))
        by (rewrite E; apply in_or_app; right; now left).
      assert (Hvw : In v (potentialMonths words)).
      { destruct (candidate_from_group _ _ Hres)
          as (_ & _ & before' & m' & later' & E' & Hm' & _).
        rewrite Hm' in Hv. rewrite E'. apply in_or_app. right.
        destruct Hv as [<-|Hv]; [now left|]. right.
        apply filter_In in Hv. tauto. }
      pose proof (NoDup_oid_inj _ _ _ Sd Hvw Hmw Eo) as ->.
      rewrite Hm in Hv. destruct Hv as [->|Hv].
      - rewrite E, map_app in Sd. cbn [map] in Sd.
        apply NoDup_remove_2 in Sd. apply Sd, in_or_app. left. now apply in_map.
      - exact (Hun c' b rest Hres Hm Hb Hv). }
    unfold findChartCandidates. rewrite E, clusterFrom_app.
    destruct (stateAt words before (m :: later) ([], O)) as [candidates chartId].
    cbn [fst] in Ho. cbn [clusterFrom].
    pose proof (visitMonth_cases words m later candidates chartId) as C.
    unfold accepted in C. rewrite Ho in C.
    rewrite (monthGroup_resorted _ _ _ _ E) in C.
    unfold associatedYAxisOf in C. cbn [monthGroupOf hd List.length] in C.
    destruct (Nat.ltb_spec 3
                (S (List.length
                      (filter (fun mj => isHorizontallyAligned m mj 10) later))));
      [|lia].
    match type of C with
    | context [(1 <? ?n)%nat] => destruct (Nat.ltb_spec 1 n); [|lia]
    end.
    destruct C as (c & Ev & _ & Hm & Hy). exists c.
    split; [|split; [exact Hm|]].
    + apply clusterFrom_keeps. rewrite Ev. cbn [fst].
      apply in_or_app. right. now left.
    + rewrite Hy. apply associated_labels.
Qed.

Lemma findChartCandidates_invariants_witness :
  exists c,
    In c (findChartCandidates Sample.oneChart)
    /\ Candidate.months c
       = Sample.word 2 "Jan" 100 320 120 330
         :: filter (fun v => isHorizontallyAligned
                               (Sample.word 2 "Jan" 100 320 120 330) v 10)
              [Sample.word 3 "Feb" 140 320 160 330;
               Sample.word 4 "Mar" 170 320 190 330;
               Sample.word 5 "Apr" 200 320 220 330]
    /\ Permutation
         (Candidate.yAxis c)
         (filter (fun v => isNumber v
                           && (isVerticallyAligned v
                                 (Sample.word 2 "Jan" 100 320 120 330) 30
                               && Qltb (x1 (bbox v))
                                       (x0 (bbox (Sample.word 2 "Jan" 100 320 120 330)))))
                 Sample.oneChart).
Proof.
  apply (proj2 (proj2 (proj2 (findChartCandidates_invariants Sample.oneChart)))
           [Sample.word 0 "100" 85 295 99 305; Sample.word 1 "500" 85 95 99 105]
           (Sample.word 2 "Jan" 100 320 120 330)
           [Sample.word 3 "Feb" 140 320 160 330;
            Sample.word 4 "Mar" 170 320 190 330;
            Sample.word 5 "Apr" 200 320 220 330]).
  - apply (seq_NoDup 6 0).
  - vm_compute; reflexivity.
  - vm_compute; lia.
  - vm_compute; lia.
  - intros c' b rest Hc' Hm Hb. vm_compute in Hc'. destruct Hc' as [<-|[]].
    injection Hm as <- _. destruct Hb as [Hb|[Hb|[]]]; discriminate Hb.
Defined.

(** C4, the claim as stated fails: on [Sample.takenLeader] the word
    [Feb] has three later words in line with it, [May], [Jun] and [Jul],
    and the two labels [100] and [500] left of it, but [Feb] is a month
    of the candidate led by [Jan] already: the only candidate returned is
    that one, and the group of [Feb] yields none. *)
Lemma findChartCandidates_taken_leader :
  potentialMonths Sample.takenLeader
  = [Sample.word 0 "100" 85 295 99 305; Sample.word 1 "500" 85 95 99 105;
     Sample.word 2 "Jan" 100 320 120 330]
      ++ Sample.word 3 "Feb" 110 328 130 338
      :: [Sample.word 4 "Mar" 140 312 160 322; Sample.word 5 "Apr" 170 312 190 322;
          Sample.word 6 "May" 200 336 220 346; Sample.word 7 "Jun" 230 336 250 346;
          Sample.word 8 "Jul" 260 336 280 346]
  /\ map oid
       (Sample.word 3 "Feb" 110 328 130 338
        :: filter (fun v => isHorizontallyAligned
                              (Sample.word 3 "Feb" 110 328 130 338) v 10)
             [Sample.word 4 "Mar" 140 312 160 322; Sample.word 5 "Apr" 170 312 190 322;
              Sample.word 6 "May" 200 336 220 346; Sample.word 7 "Jun" 230 336 250 346;
              Sample.word 8 "Jul" 260 336 280 346])
     = [3; 6; 7; 8]%nat
  /\ map (fun v => JsString.parseInt (JsString.removeCommas (text v)))
       (filter (fun v => isNumber v
                         && (isVerticallyAligned v
                               (Sample.word 3 "Feb" 110 328 130 338) 30
                             && Qltb (x1 (bbox v))
                                     (x0 (bbox (Sample.word 3 "Feb" 110 328 130 338)))))
               Sample.takenLeader)
     = [Some 100%Z; Some 500%Z]
  /\ map (fun c => map oid (Candidate.months c))
       (findChartCandidates Sample.takenLeader)
     = [[2; 3; 4; 5]%nat].
Proof. repeat split; vm_compute; reflexivity. Qed.

(* ------------------------------------------------------------------ *)
(** ** The chart a measurement returns *)

Lemma mapM_Returns {A B : Type} (f : A -> outcome B) (l : list A) :
  forall bs, mapM f l = Returns bs -> Forall2 (fun a b => f a = Returns b) l bs.
Proof.
  induction l as [|a l IH]; cbn [mapM]; intros bs H.
  - injection H as <-. constructor.
  - destruct (f a) as [b| |] eqn:Ea; cbn [bind] in H; try discriminate.
    destruct (mapM f l) as [bs'| |]; cbn [bind] in H; try discriminate.
    injection H as <-. constructor; auto.
Qed.

Lemma mapM_settles {A B : Type} (f : A -> outcome B) (l : list A) :
  (forall a, In a l -> exists b, f a = Returns b) ->
  exists bs, mapM f l = Returns bs.
Proof.
  induction l as [|a l IH]; intros H; cbn [mapM]; [eauto|].
  destruct (H a (or_introl eq_refl)) as [b ->].
  destruct IH as [bs ->]; [intros x Hx; apply H; now right|].
  cbn [bind]. eauto.
Qed.

Lemma detectBars_Returns (page : Page) (chart : Candidate.t) (result : Chart.t) :
  detectBarsForChart page chart = Returns result ->
  exists img cal usageData,
    image page = Some img
    /\ calibrate (yValuesOf (Candidate.yAxis chart)) = Some cal
    /\ mapM (scanMonth img cal (map text (Candidate.legend chart)))
            (Candidate.months chart)
       = Returns usageData
    /\ Chart.data result = usageData
    /\ Chart.title result
       = orElse (Some (join [32%N] (map text (Candidate.title chart))))
                (JsString.of_ascii "Usage Chart "
                 ++ JsString.ofNat (Candidate.id chart))
    /\ Chart.unit result
       = orElse (option_map text (Candidate.unit chart)) (JsString.of_ascii "Units").
Proof.
  unfold detectBarsForChart.
  destruct (image page) as [img|]; [|discriminate].
  destruct (negb (context2d page)); [discriminate|].
  destruct (calibrate (yValuesOf (Candidate.yAxis chart))) as [cal|]; [|discriminate].
  destruct (Candidate.months chart) as [|m ms] eqn:Em; [discriminate|].
  destruct ((width img =? 0) || (height img =? 0))%N; [discriminate|].
  destruct (mapM (scanMonth img cal (map text (Candidate.legend chart))) (m :: ms))
    as [usageData| |] eqn:Eu; cbn [bind]; try discriminate.
  intros H. injection H as <-. exists img, cal, usageData.
  repeat split; auto.
Qed.

Lemma scanMonth_Returns (img : Raster) (cal : Calibration)
      (years : list JsString.t) (month : OcrWord) (r : Chart.row) :
  scanMonth img cal years month = Returns r ->
  Chart.month r = text month
  /\ Forall2 (fun i e => scanSlot img cal years month i = Returns e)
             (seq 0 (numYears years)) (Chart.usage r).
Proof.
  unfold scanMonth.
  destruct (mapM (scanSlot img cal years month) (seq 0 (numYears years)))
    as [usage| |] eqn:E; cbn [bind]; try discriminate.
  intros H. injection H as <-. split; [reflexivity|]. now apply mapM_Returns.
Qed.

Lemma scanSlot_Returns (img : Raster) (cal : Calibration)
      (years : list JsString.t) (month : OcrWord) (i : nat) (e : Chart.entry) :
  scanSlot img cal years month i = Returns e ->
  Chart.year e = yearLabel years i
  /\ exists barTopY,
      scanColumn img (scanXOf years month i) (zeroLineY cal) (y (yMax cal))
      = Returns barTopY
      /\ Chart.value e
         = if (barTopY =? -1)%Z then Fin 0
           else Num.round (Num.mul (Num.sub (zeroLineY cal) (Num.ofZ barTopY))
                                   (valuePerPixel cal)).
Proof.
  unfold scanSlot.
  destruct (scanColumn img (scanXOf years month i) (zeroLineY cal) (y (yMax cal)))
    as [barTopY| |]; cbn [bind]; try discriminate.
  destruct (barTopY =? -1)%Z eqn:E; intros H; injection H as <-;
    (split; [reflexivity|]); exists barTopY; rewrite E; split; reflexivity.
Qed.

Lemma yearLabel_not_empty (years : list JsString.t) (i : nat) :
  yearLabel years i <> [].
Proof.
  unfold yearLabel, orElse.
  destruct (nth_error years i) as [[|c s]|]; discriminate.
Qed.

Lemma Forall2_map_eq {A B C : Type} (f : A -> C) (g : B -> C) (l : list A)
      (l' : list B) :
  Forall2 (fun a b => g b = f a) l l' -> map g l' = map f l.
Proof. induction 1; cbn [map]; congruence. Qed.

(** X10: the chart a measurement returns is fully populated: one row per
    month of the candidate, in order and under the month's text; in every
    row one entry per legend word, and one entry when there is no legend,
    labelled with the legend texts or [Year n]; no label, title or unit
    is the empty string. *)
Theorem returned_chart_shape (page : Page) (chart : Candidate.t) (result : Chart.t) :
  detectBarsForChart page chart = Returns result ->
  map Chart.month (Chart.data result) = map text (Candidate.months chart)
  /\ (forall r, In r (Chart.data result) ->
                map Chart.year (Chart.usage r)
                = map (yearLabel (map text (Candidate.legend chart)))
                      (seq 0 (Nat.max 1 (List.length (Candidate.legend chart))))
                /\ forall e, In e (Chart.usage r) -> Chart.year e <> [])
  /\ Chart.title result <> [] /\ Chart.unit result <> []
  /\ Chart.data result <> [].
Proof.
  intros H.
  destruct (detectBars_Returns _ _ H) as (img & cal & usageData & Hi & Hc & Hm & Hd & Ht & Hu).
  apply mapM_Returns in Hm. rewrite Hd.
  split; [|split; [|split; [|split]]].
  - apply Forall2_map_eq. eapply Forall2_impl; [|exact Hm].
    intros a b Hab. now apply scanMonth_Returns in Hab.
  - intros r Hr.
    assert (exists month, scanMonth img cal (map text (Candidate.legend chart)) month
                          = Returns r) as [month Hs].
    { clear -Hm Hr. induction Hm as [|a b l l' Hab _ IH]; [contradiction|].
      destruct Hr as [<-|Hr]; eauto. }
    apply scanMonth_Returns in Hs as [_ Hs].
    unfold numYears in Hs. rewrite length_map in Hs.
    assert (Hy : map Chart.year (Chart.usage r)
                 = map (yearLabel (map text (Candidate.legend chart)))
                       (seq 0 (Nat.max 1 (List.length (Candidate.legend chart))))).
    { apply Forall2_map_eq. eapply Forall2_impl; [|exact Hs].
      intros a b Hab. now apply scanSlot_Returns in Hab. }
    split; [exact Hy|]. intros e He.
    apply (in_map Chart.year) in He. rewrite Hy in He.
    apply in_map_iff in He as (i & <- & _). apply yearLabel_not_empty.
  - rewrite Ht. unfold orElse.
    destruct (join [32%N] (map text (Candidate.title chart))); discriminate.
  - rewrite Hu. unfold orElse.
    destruct (option_map text (Candidate.unit chart)) as [[|c s]|]; discriminate.
  - unfold detectBarsForChart in H. rewrite Hi, Hc in H.
    destruct (negb (context2d page)); [discriminate|].
    destruct (Candidate.months chart); [discriminate|].
    inversion Hm. discriminate.
Qed.

Lemma returned_chart_shape_witness :
  exists result,
    detectBarsForChart Sample.blankPage Sample.repeatedCandidate = Returns result
    /\ map Chart.month (Chart.data result)
       = map text (Candidate.months Sample.repeatedCandidate).
Proof.
  eexists. split; [vm_compute; reflexivity|].
  refine (proj1 (@returned_chart_shape Sample.blankPage Sample.repeatedCandidate _ _)).
  vm_compute. reflexivity.
Defined.

(* ------------------------------------------------------------------ *)
(** ** What the scan finds *)

(** X11: from a zero line that is a finite row of at most [2 ^ 53], with
    the top of the chart area at row [-2 ^ 53] at least, the scan of a
    column ends and gives either the first dark row met going up from the
    zero line, a row above the top of the chart area with no dark row
    between it and the zero line, or -1; and when it gives -1 no row from
    0 on, above the top and up from the zero line, is dark. *)
Theorem scanColumn_first_dark (img : Raster) (scanX : number) (zero top : Q) :
  (Qfloor zero <= 2 ^ 53)%Z ->
  (- 2 ^ 53 <= Qfloor top)%Z ->
  exists b,
    scanColumnDouble img scanX (Fin zero) top = Returns b
    /\ (b <> (-1)%Z ->
        top < inject_Z b /\ (b <= Qfloor zero)%Z
        /\ isDarkPixelDouble (data img) (pixelIndexDouble img b scanX) = true
        /\ forall r, (b < r <= Qfloor zero)%Z ->
                     isDarkPixelDouble (data img) (pixelIndexDouble img r scanX)
                     = false)
    /\ (b = (-1)%Z ->
        forall r, top < inject_Z r -> (0 <= r <= Qfloor zero)%Z ->
                  isDarkPixelDouble (data img) (pixelIndexDouble img r scanX)
                  = false).
Proof.
  intros Hzero Htop. unfold scanColumnDouble. cbn [Num.floor Num.ofZ].
  rewrite Qfloor_Z.
  destruct (@scanRowsDouble_returns img scanX top Htop
              (Z.to_nat (Qfloor zero - Qfloor top)) (Qfloor zero) Hzero
              (Nat.le_refl _))
    as (b & Eb & Hf & Hn).
  exists b. split; [exact Eb|]. split; [exact Hf|].
  intros Hb r Ht Hr. apply (Hn Hb r Ht). lia.
Qed.

Lemma scanColumn_first_dark_witness :
  isDarkPixelDouble (data (mkRaster 1 1 [255; 255; 255; 255]%N))
    (pixelIndexDouble (mkRaster 1 1 [255; 255; 255; 255]%N) 150 (Fin 110))
  = false.
Proof.
  destruct (@scanColumn_first_dark (mkRaster 1 1 [255; 255; 255; 255]%N)
              (Fin 110) 300 100)
    as (b & Hb & _ & Hnone).
  - vm_compute. intros H. discriminate H.
  - vm_compute. intros H. discriminate H.
  - apply Hnone.
    + vm_compute in Hb. injection Hb as <-. reflexivity.
    + reflexivity.
    + vm_compute. split; discriminate.
Defined.

(* ------------------------------------------------------------------ *)
(** ** The values a scan records *)

Lemma nearestEven_nonneg (x : Q) : 0 <= x -> (0 <= Double.nearestEven x)%Z.
Proof.
  intros H. unfold Double.nearestEven.
  assert (F : (0 <= Qfloor x)%Z).
  { change 0%Z with (Qfloor 0). now apply Qfloor_resp_le. }
  destruct (Qcompare (x - inject_Z (Qfloor x)) (1 # 2)); [|lia|lia].
  destruct (Z.even (Qfloor x)); lia.
Qed.

(** Rounding keeps a number that is not negative so. *)
Lemma round_notNegative (q : Q) :
  0 <= q -> Double.round q = PosInf \/ exists p, Double.round q = Fin p /\ 0 <= p.
Proof.
  intros H. unfold Double.round. cbv zeta.
  assert (R : 0 <= Qred q) by (now rewrite Qred_correct).
  destruct (Qeq_bool (Qred q) 0); [right; exists 0; split; [reflexivity | lra]|].
  assert (S : Qltb (Qred q) 0 = false) by (now apply Qltb_ge).
  rewrite S.
  match goal with |- context [if ?c then PosInf else _] => destruct c end;
    [now left|].
  right. eexists. split; [reflexivity|]. rewrite Qred_correct.
  set (e := Z.max (Double.binade (Qabs (Qred q)) - 52) (-1074)).
  assert (P : 0 < 2 ^ e) by (apply Qpower_0_lt; reflexivity).
  assert (X : 0 <= Qabs (Qred q) / 2 ^ e).
  { apply Qle_shift_div_l; [exact P|]. rewrite Qmult_0_l. apply Qabs_nonneg. }
  pose proof (@nearestEven_nonneg _ X) as M. rewrite Zle_Qle in M.
  change (inject_Z 0) with 0 in M.
  rewrite Qmult_1_l. apply Qmult_le_0_compat; lra.
Qed.

Lemma lift_notNegative (a : number) : notNegative a -> notNegative (Double.lift a).
Proof.
  destruct a as [q| | |]; cbn [notNegative Double.lift]; auto.
  intros H. destruct (@round_notNegative _ H) as [->|(p & -> & Hp)]; [exact I | exact Hp].
Qed.

Lemma mul_notNegative (a b : number) :
  notNegative a -> notNegative b -> notNegative (Double.mul a b).
Proof.
  intros Ha Hb. apply lift_notNegative.
  destruct a as [p| | |], b as [q| | |]; cbn [notNegative Num.mul Num.neg] in *;
    try contradiction; try exact I.
  - rewrite Qred_correct. now apply Qmult_le_0_compat.
  - unfold Num.scaleInf. destruct (p ?= 0) eqn:E; try exact I.
    apply Qlt_alt in E. lra.
  - unfold Num.scaleInf. destruct (q ?= 0) eqn:E; try exact I.
    apply Qlt_alt in E. lra.
Qed.

Lemma div_notNegative (a b : number) :
  notNegative a -> notNegative b -> notNegative (Double.div a b).
Proof.
  intros Ha Hb. apply lift_notNegative.
  destruct a as [p| | |], b as [q| | |]; cbn [notNegative Num.div] in *;
    try contradiction; try exact I; try lra.
  - destruct (Qeq_bool q 0) eqn:Eq.
    + unfold Num.scaleInf. destruct (p ?= 0) eqn:E; try exact I.
      apply Qlt_alt in E. lra.
    + apply Qeq_bool_neq in Eq. cbn [notNegative]. rewrite Qred_correct.
      apply Qle_shift_div_l; [|lra].
      destruct (Qlt_le_dec 0 q) as [L|L]; [exact L|]. exfalso. apply Eq. lra.
  - assert (E : Qltb q 0 = false) by (now apply Qltb_ge). now rewrite E.
Qed.

(** The scale of labels ascending by value is not negative. *)
Lemma calibrateDouble_notNegative (yValues : list YValue) (s : Scale) :
  StronglySorted (fun u v => (value u <= value v)%Z) yValues ->
  Forall (fun v => (Z.abs (value v) <= 2 ^ 53)%Z) yValues ->
  calibrateDouble yValues = Some s ->
  notNegative (perPixel s).
Proof.
  intros Hs Hb Hc.
  destruct yValues as [|lo [|x l]]; try discriminate.
  unfold calibrateDouble in Hc. cbv zeta in Hc. injection Hc as <-. cbn [perPixel].
  change (match l with [] => x | _ :: _ => last l lo end)
    with (last (lo :: x :: l) lo).
  set (hi := last (lo :: x :: l) lo).
  assert (Hin : In hi (lo :: x :: l)).
  { unfold hi. destruct (exists_last (l := lo :: x :: l)) as (l' & a & E);
      [discriminate|].
    rewrite E, last_last. apply in_or_app. right. now left. }
  assert (Hle : (value lo <= value hi)%Z).
  { apply StronglySorted_inv in Hs as [_ Hall]. rewrite Forall_forall in Hall.
    destruct Hin as [<-|Hin]; [lia | auto]. }
  rewrite Forall_forall in Hb.
  assert (Blo : (Z.abs (value lo) <= 2 ^ 53)%Z) by (apply Hb; now left).
  assert (Bhi : (Z.abs (value hi) <= 2 ^ 53)%Z) by (apply Hb; exact Hin).
  apply div_notNegative.
  - unfold Double.ofZ. rewrite (@round_Z _ Bhi), (@round_Z _ Blo).
    apply lift_notNegative. cbn [Num.sub Num.add Num.neg notNegative].
    rewrite !Qred_correct. rewrite Zle_Qle in Hle. lra.
  - destruct (Double.sub (Fin (y lo)) (Fin (y hi))) as [d| | |];
      cbn [Double.abs notNegative]; auto. apply Qabs_nonneg.
Qed.

Lemma scanSlotDouble_Returns (img : Raster) (s : Scale)
      (years : list JsString.t) (month : OcrWord) (i : nat) (e : Chart.entry) :
  scanSlotDouble img s years month i = Returns e ->
  Chart.year e = yearLabel years i
  /\ exists barTopY,
      scanColumnDouble img (scanXOfDouble years month i) (zeroLine s) (top s)
      = Returns barTopY
      /\ Chart.value e
         = if (barTopY =? -1)%Z then Fin 0
           else Num.round (Double.mul (Double.sub (zeroLine s) (Num.ofZ barTopY))
                                      (perPixel s)).
Proof.
  unfold scanSlotDouble.
  destruct (scanColumnDouble img (scanXOfDouble years month i) (zeroLine s) (top s))
    as [barTopY| |]; cbn [bind]; try discriminate.
  destruct (barTopY =? -1)%Z eqn:E; intros H; injection H as <-;
    (split; [reflexivity|]); exists barTopY; rewrite E; split; reflexivity.
Qed.


Lemma scanColumnDouble_settles (img : Raster) (scanX : number) (s : Scale) :
  scannable s ->
  exists b,
    scanColumnDouble img scanX (zeroLine s) (top s) = Returns b
    /\ (b <> (-1)%Z ->
        exists zero, zeroLine s = Fin zero /\ (b <= Qfloor zero)%Z).
Proof.
  intros [Htop Hz]. unfold scanColumnDouble.
  destruct (zeroLine s) as [zero| | |]; cbn [Num.floor Num.ofZ]; try contradiction.
  - rewrite Qfloor_Z.
    destruct (@scanRowsDouble_returns img scanX (top s) Htop
                (Z.to_nat (Qfloor zero - Qfloor (top s))) (Qfloor zero) Hz
                (Nat.le_refl _))
      as (b & Eb & Hf & _).
    exists b. split; [exact Eb|]. intros Hb. exists zero. split; [reflexivity|].
    destruct (Hf Hb) as (_ & Hle & _). exact Hle.
  - exists (-1)%Z. split; [reflexivity | congruence].
  - exists (-1)%Z. split; [reflexivity | congruence].
Qed.

(** X12: with labels ascending by value, of at most [2 ^ 53] in size, and
    a scale the scan ends on, no value a slot records is a negative
    number: it is a whole number that is not negative, or, where the
    arithmetic leaves the finite numbers, plus infinity or NaN. *)
Theorem returned_values_nonnegative
        (yValues : list YValue) (s : Scale) (img : Raster)
        (years : list JsString.t) (month : OcrWord) (i : nat) (e : Chart.entry) :
  StronglySorted (fun u v => (value u <= value v)%Z) yValues ->
  Forall (fun v => (Z.abs (value v) <= 2 ^ 53)%Z) yValues ->
  calibrateDouble yValues = Some s ->
  scannable s ->
  scanSlotDouble img s years month i = Returns e ->
  (exists n, (0 <= n)%Z /\ Chart.value e = Fin (inject_Z n))
  \/ Chart.value e = PosInf \/ Chart.value e = NaN.
Proof.
  intros Hs Hb Hc Hn He.
  pose proof (@calibrateDouble_notNegative _ _ Hs Hb Hc) as Hp.
  apply scanSlotDouble_Returns in He as (_ & b & Eb & Hv).
  destruct (Z.eqb_spec b (-1)) as [_|Hne];
    [left; exists 0%Z; split; [lia | exact Hv]|].
  destruct (@scanColumnDouble_settles img (scanXOfDouble years month i) s Hn)
    as (b' & Eb' & Hz).
  rewrite Eb in Eb'. injection Eb' as <-.
  destruct (Hz Hne) as (zero & Ez & Hle).
  assert (Hh : notNegative (Double.sub (zeroLine s) (Num.ofZ b))).
  { rewrite Ez. apply lift_notNegative.
    cbn [Num.sub Num.add Num.neg Num.ofZ notNegative]. rewrite !Qred_correct.
    assert (inject_Z b <= inject_Z (Qfloor zero)) by (now rewrite <- Zle_Qle).
    pose proof (Qfloor_le zero). lra. }
  pose proof (@mul_notNegative _ _ Hh Hp) as Hm. rewrite Hv.
  destruct (Double.mul (Double.sub (zeroLine s) (Num.ofZ b)) (perPixel s))
    as [q| | |]; cbn [notNegative Num.round] in *; auto; [|contradiction].
  left. exists (Qfloor (q + (1 # 2))). split; [|reflexivity].
  change 0%Z with (Qfloor 0). apply Qfloor_resp_le. lra.
Qed.

Lemma returned_values_nonnegative_witness :
  exists n, (0 <= n)%Z /\ Fin 0 = Fin (inject_Z n).
Proof.
  destruct (@returned_values_nonnegative [mkYValue 0 300; mkYValue 500 100]
              (mkScale 100 (Fin (5 # 2)) (Fin 300))
              (mkRaster 1 1 [255; 255; 255; 255]%N) []
              (Sample.word 2 "Jan" 100 320 120 330) 0
              (Chart.mkEntry (JsString.of_ascii "Year 1") (Fin 0)))
    as [H|[H|H]].
  - repeat constructor; cbn [value]; lia.
  - repeat constructor; cbn [value]; lia.
  - vm_compute. reflexivity.
  - split; vm_compute; intros H; discriminate H.
  - vm_compute. reflexivity.
  - exact H.
  - discriminate H.
  - discriminate H.
Defined.

(* ------------------------------------------------------------------ *)
(** ** When a scan settles *)

(** X13: on a scale the scan ends on (a zero line that is not plus
    infinity, at row [2 ^ 53] at most, and the top of the chart area at
    row [-2 ^ 53] at least) the scan of a month settles: it returns the
    row of the month, with one entry for each series. *)
Theorem measurement_settles
        (img : Raster) (s : Scale) (years : list JsString.t) (month : OcrWord) :
  scannable s ->
  exists r,
    scanMonthDouble img s years month = Returns r
    /\ Chart.month r = text month
    /\ List.length (Chart.usage r) = numYears years.
Proof.
  intros Hn. unfold scanMonthDouble.
  destruct (@mapM_settles _ _ (scanSlotDouble img s years month)
              (seq 0 (numYears years)))
    as [usage Eu].
  - intros i _. unfold scanSlotDouble.
    destruct (@scanColumnDouble_settles img (scanXOfDouble years month i) s Hn)
      as (b & -> & _).
    cbn [bind]. destruct (b =? -1)%Z; eauto.
  - rewrite Eu. cbn [bind]. eexists. split; [reflexivity|].
    cbn [Chart.month Chart.usage]. split; [reflexivity|].
    apply mapM_Returns in Eu. apply Forall2_length in Eu.
    rewrite <- Eu. apply length_seq.
Qed.

Lemma measurement_settles_witness :
  exists r,
    scanMonthDouble (mkRaster 1 1 [255; 255; 255; 255]%N)
                    (mkScale 100 (Fin (5 # 2)) (Fin 300)) []
                    (Sample.word 2 "Jan" 100 320 120 330)
    = Returns r
    /\ Chart.month r = JsString.of_ascii "Jan"
    /\ List.length (Chart.usage r) = 1%nat.
Proof.
  apply (@measurement_settles (mkRaster 1 1 [255; 255; 255; 255]%N)
           (mkScale 100 (Fin (5 # 2)) (Fin 300)) []
           (Sample.word 2 "Jan" 100 320 120 330)).
  split; vm_compute; intros H; discriminate H.
Defined.

(** X14: on a candidate of the finder, with a canvas context and an image
    that is not empty, the only error a measurement can raise is the one
    of insufficient y-axis labels. *)
Theorem finder_candidate_errors
        (words : list OcrWord) (page : Page) (img : Raster) (c : Candidate.t)
        (e : error) :
  In c (findChartCandidates words) ->
  image page = Some img -> context2d page = true ->
  width img <> 0%N -> height img <> 0%N ->
  detectBarsForChart page c = Throws e ->
  e = InsufficientYAxisLabels (Candidate.id c).
Proof.
  intros Hc Hi Hx Hw Hh. unfold findChartCandidates in Hc.
  assert (F : Forall wellFormed
                (fst (clusterFrom words (potentialMonths words) ([], O))))
    by (apply clusterFrom_wellFormed; constructor).
  rewrite Forall_forall in F. destruct (F c Hc) as [Hm _].
  unfold detectBarsForChart. rewrite Hi, Hx. cbn [negb].
  destruct (calibrate (yValuesOf (Candidate.yAxis c))) as [cal|]; [|congruence].
  destruct (Candidate.months c) as [|m ms]; [cbn in Hm; lia|].
  destruct (N.eqb_spec (width img) 0); [contradiction|].
  destruct (N.eqb_spec (height img) 0); [contradiction|]. cbn [orb].
  intros H. exfalso.
  pose proof (@mapM_never_throws _ _
                (scanMonth img cal (map text (Candidate.legend c))) (m :: ms)
                (scanMonth_never_throws img cal (map text (Candidate.legend c))) e) as N.
  destruct (mapM (scanMonth img cal (map text (Candidate.legend c))) (m :: ms));
    cbn [bind] in H; congruence.
Qed.

Lemma finder_candidate_errors_witness :
  InsufficientYAxisLabels 1
  = InsufficientYAxisLabels
      (Candidate.id (last (findChartCandidates Sample.twoCharts)
                          Sample.stuckCandidate)).
Proof.
  apply (@finder_candidate_errors Sample.twoCharts Sample.blankPage
           (mkRaster 1 1 [255; 255; 255; 255]%N)
           (last (findChartCandidates Sample.twoCharts) Sample.stuckCandidate)
           (InsufficientYAxisLabels 1)).
  - vm_compute. right. left. reflexivity.
  - reflexivity.
  - reflexivity.
  - discriminate.
  - discriminate.
  - vm_compute. reflexivity.
Defined.

(* ------------------------------------------------------------------ *)
(** ** Errors and empty results of the entry point *)

Lemma processCandidates_never_throws (page : Page) (candidates : list Candidate.t) :
  forall processedCharts e,
    processCandidates page candidates processedCharts <> Throws e.
Proof.
  induction candidates as [|c rest IH]; intros acc e; cbn [processCandidates];
    [discriminate|].
  destruct (detectBarsForChart page c); [apply IH | apply IH | discriminate].
Qed.

(** X15: an error reaches the caller of [processChart] only from the
    creation or the termination of the worker: never from recognition
    and never from the measurement of a candidate. *)
Theorem processChart_throws_only_worker_errors
        (eng : Engine) (page : Page) (e : error) :
  processChart eng page = Throws e ->
  createWorker eng = Throws e
  \/ (createWorker eng = Returns tt /\ terminate eng = Throws e).
Proof.
  unfold processChart.
  destruct (createWorker eng) as [[]| |] eqn:W; cbn [bind];
    [|intros H; left; congruence|discriminate].
  intros H. right. split; [reflexivity|].
  assert (G : forall e', match processChartBody eng page with
                         | Throws _ => Returns []
                         | settled => settled
                         end <> Throws e').
  { intros e'. unfold processChartBody.
    destruct (recognize eng) as [data| |]; cbn [bind]; try discriminate.
    destruct (findChartCandidates (freshWordsFrom 0 (flattenWords data)))
      as [|c rest] eqn:R; [discriminate|].
    pose proof (@processCandidates_never_throws page (c :: rest) [] e') as N.
    destruct (processCandidates page (c :: rest) []); congruence. }
  destruct (match processChartBody eng page with
            | Throws _ => Returns []
            | settled => settled
            end) as [charts|e'|] eqn:B; [| |discriminate].
  - destruct (terminate eng) as [[]| |]; cbn [bind] in H; congruence.
  - exfalso. exact (G e' eq_refl).
Qed.

Lemma processChart_throws_only_worker_errors_witness :
  createWorker Sample.engineUnavailable = Throws EngineError
  \/ (createWorker Sample.engineUnavailable = Returns tt
      /\ terminate Sample.engineUnavailable = Throws EngineError).
Proof.
  apply (@processChart_throws_only_worker_errors
           Sample.engineUnavailable Sample.blankPage EngineError).
  reflexivity.
Defined.

Lemma freshWordsFrom_months (ws : list OcrWord) :
  forall next,
    List.length (filter isMonth (freshWordsFrom next ws))
    = List.length (filter isMonth ws).
Proof.
  induction ws as [|v ws IH]; intros next; [reflexivity|].
  cbn [freshWordsFrom filter].
  change (isMonth (mkWord next (text v) (bbox v) (confidence v))) with (isMonth v).
  destruct (isMonth v); cbn [List.length]; now rewrite IH.
Qed.

(** X16: when the worker is created and terminated normally and fewer
    than four of the recognised words are month labels to [isMonth],
    [processChart] returns the empty sequence: a page without a chart is
    no error. *)
Theorem processChart_no_chart (eng : Engine) (page : Page) (data : Recognized) :
  createWorker eng = Returns tt ->
  terminate eng = Returns tt ->
  recognize eng = Returns data ->
  (List.length (filter isMonth (flattenWords data)) < 4)%nat ->
  processChart eng page = Returns [].
Proof.
  intros Hw Ht Hr Hm. unfold processChart, processChartBody.
  rewrite Hw, Hr. cbn [bind].
  rewrite few_words_no_candidate
    by (left; now rewrite freshWordsFrom_months).
  rewrite Ht. reflexivity.
Qed.

Lemma processChart_no_chart_witness :
  processChart (Sample.engineReading Sample.floorAxis) Sample.blankPage = Returns [].
Proof.
  apply (@processChart_no_chart (Sample.engineReading Sample.floorAxis)
           Sample.blankPage (Some [Some [Some [Some Sample.floorAxis]]])
           eq_refl eq_refl eq_refl).
  vm_compute. lia.
Defined.

(* ------------------------------------------------------------------ *)
(** ** The bill history *)

Section HistoryFacts.
Variable Bill : Type.
Variable id : Bill -> JsString.t.

(** X17: after an analysis has succeeded the history holds at most 20
    bills: the new bill first, then the former bills in their order, the
    ones from the twentieth on dropped; and the new bill is the one
    displayed. *)
Theorem history_keeps_last_twenty (newBill : Bill) (st : App.state Bill) :
  let st' := App.handleAnalyzeBillSuccess newBill st in
  (List.length (App.history st') <= 20)%nat
  /\ List.length (App.history st') = Nat.min 20 (S (List.length (App.history st)))
  /\ App.billData st' = Some newBill
  /\ exists kept dropped,
      App.history st' = newBill :: kept
      /\ App.history st = kept ++ dropped
      /\ List.length kept = Nat.min 19 (List.length (App.history st)).
Proof.
  cbv zeta. unfold App.handleAnalyzeBillSuccess. cbn [App.history App.billData].
  cbn [List.length]. rewrite length_firstn.
  split; [lia|]. split; [lia|]. split; [reflexivity|].
  exists (firstn 19 (App.history st)), (skipn 19 (App.history st)).
  split; [reflexivity|]. split; [symmetry; apply firstn_skipn|].
  apply length_firstn.
Qed.

Lemma find_filter_other (key key' : JsString.t) (l : list Bill) :
  key' <> key ->
  find (fun item => JsString.eqb (id item) key')
       (filter (fun item => negb (JsString.eqb (id item) key)) l)
  = find (fun item => JsString.eqb (id item) key') l.
Proof.
  intros Hne. induction l as [|b l IH]; [reflexivity|]. cbn [filter find].
  destruct (JsString.eqb (id b) key) eqn:E; cbn [negb find].
  - apply JsString_eqb_eq in E.
    destruct (JsString.eqb (id b) key') eqn:E'; [|exact IH].
    apply JsString_eqb_eq in E'. congruence.
  - destruct (JsString.eqb (id b) key'); [reflexivity | exact IH].
Qed.

(** X18: deleting a bill removes every bill of that id from the history
    and keeps the others in order; selecting the deleted id afterwards
    changes nothing, selecting another id finds the bill it found before,
    and the bill displayed no longer has the deleted id. *)
Theorem delete_then_select (key : JsString.t) (st : App.state Bill) :
  let st' := App.handleDeleteHistory id key st in
  (forall b, In b (App.history st') <-> In b (App.history st) /\ id b <> key)
  /\ App.handleSelectHistory id key st' = st'
  /\ (forall key', key' <> key ->
                   find (fun item => JsString.eqb (id item) key') (App.history st')
                   = find (fun item => JsString.eqb (id item) key') (App.history st))
  /\ (forall b, App.billData st' = Some b -> id b <> key).
Proof.
  cbv zeta. unfold App.handleDeleteHistory. cbn [App.history App.billData].
  split; [|split; [|split]].
  - intros b. rewrite filter_In, negb_true_iff. split; intros [Hin Hb]; split; auto.
    + intros E. apply JsString_eqb_eq in E. congruence.
    + destruct (JsString.eqb (id b) key) eqn:E; [|reflexivity].
      apply JsString_eqb_eq in E. contradiction.
  - unfold App.handleSelectHistory. cbn [App.history].
    destruct (find (fun item => JsString.eqb (id item) key)
                   (filter (fun item => negb (JsString.eqb (id item) key))
                           (App.history st))) as [b|] eqn:F; [|reflexivity].
    exfalso. apply find_some in F as [Hin Hb].
    apply filter_In in Hin as [_ Hn]. rewrite Hb in Hn. discriminate.
  - intros key' Hne. now apply find_filter_other.
  - intros b. destruct (App.billData st) as [b0|]; [|discriminate].
    destruct (JsString.eqb (id b0) key) eqn:E; [discriminate|].
    intros H. injection H as <-. intros E'.
    apply JsString_eqb_eq in E'. congruence.
Qed.

(** X19: a user's update of a bill replaces, in the history, every bill
    of that id by the updated bill and leaves the other bills, the order
    and the ids of the history as they were. *)
Theorem update_keeps_ids (updated : Bill) (st : App.state Bill) :
  let st' := App.handleBillDataUpdate id updated st in
  map id (App.history st') = map id (App.history st)
  /\ Forall2 (fun old new => if JsString.eqb (id old) (id updated)
                             then new = updated else new = old)
             (App.history st) (App.history st')
  /\ App.billData st' = Some updated.
Proof.
  cbv zeta. unfold App.handleBillDataUpdate. cbn [App.history App.billData].
  split; [|split; [|reflexivity]].
  - induction (App.history st) as [|h l IH]; [reflexivity|]. cbn [map].
    rewrite IH. f_equal.
    destruct (JsString.eqb (id h) (id updated)) eqn:E; [|reflexivity].
    apply JsString_eqb_eq in E. congruence.
  - induction (App.history st) as [|h l IH]; cbn [map]; constructor; [|exact IH].
    destruct (JsString.eqb (id h) (id updated)); reflexivity.
Qed.
End HistoryFacts.

Lemma delete_then_select_witness :
  find (fun item : JsString.t * nat => JsString.eqb (fst item) (JsString.of_ascii "b"))
       (App.history
          (App.handleDeleteHistory fst (JsString.of_ascii "a")
             (App.mkState None
                [(JsString.of_ascii "a", 1%nat); (JsString.of_ascii "b", 2%nat)]
                None None)))
  = Some (JsString.of_ascii "b", 2%nat).
Proof.
  rewrite (proj1 (proj2 (proj2
            (@delete_then_select (JsString.t * nat) fst (JsString.of_ascii "a")
               (App.mkState None
                  [(JsString.of_ascii "a", 1%nat); (JsString.of_ascii "b", 2%nat)]
                  None None))))
            (JsString.of_ascii "b")).
  - reflexivity.
  - discriminate.
Defined.

(* ------------------------------------------------------------------ *)
(** ** Alignment *)

Lemma Qltb_morph (a b c : Q) : a == b -> Qltb a c = Qltb b c.
Proof.
  intros E. destruct (Qltb b c) eqn:H.
  - apply Qltb_lt. apply Qltb_lt in H. lra.
  - apply Qltb_ge. apply Qltb_ge in H. lra.
Qed.

(** X20: the two alignment tests do not depend on the order of the two
    words, and with a positive tolerance every word is aligned with
    itself. *)
Theorem alignment_symmetric (word1 word2 : OcrWord) (tolerance : Q) :
  isHorizontallyAligned word1 word2 tolerance
  = isHorizontallyAligned word2 word1 tolerance
  /\ isVerticallyAligned word1 word2 tolerance
     = isVerticallyAligned word2 word1 tolerance
  /\ (0 < tolerance ->
      isHorizontallyAligned word1 word1 tolerance = true
      /\ isVerticallyAligned word1 word1 tolerance = true).
Proof.
  unfold isHorizontallyAligned, isVerticallyAligned. cbv zeta.
  split; [|split].
  - apply Qltb_morph. rewrite Qabs_Qminus. reflexivity.
  - apply Qltb_morph. rewrite Qabs_Qminus. reflexivity.
  - intros Ht. split; apply Qltb_lt.
    + setoid_replace (py (getCenter (bbox word1)) - py (getCenter (bbox word1)))
        with 0 by ring. exact Ht.
    + setoid_replace (px (getCenter (bbox word1)) - px (getCenter (bbox word1)))
        with 0 by ring. exact Ht.
Qed.

Lemma alignment_symmetric_witness :
  isHorizontallyAligned (Sample.ofText Sample.kelvin) (Sample.ofText Sample.kelvin) 10
  = true.
Proof.
  apply (proj2 (proj2 (alignment_symmetric (Sample.ofText Sample.kelvin)
                                           (Sample.ofText Sample.kelvin) 10))).
  reflexivity.
Defined.

(* ------------------------------------------------------------------ *)
(** ** The earlier chart processor *)

Lemma V1_yValuesOf_length (yAxisValues : list OcrWord) :
  List.length (V1.yValuesOf yAxisValues)
  = List.length (filter parsable yAxisValues).
Proof.
  unfold V1.yValuesOf.
  induction yAxisValues as [|v l IH]; [reflexivity|].
  cbn [flat_map filter]. rewrite length_app, IH.
  destruct (parsable v) eqn:E; unfold parsable in E;
    destruct (JsString.parseInt (JsString.removeCommas (text v)));
    try discriminate; reflexivity.
Qed.

(** X21: once the image has loaded and the canvas hands out a context,
    the earlier [detectBars] always settles: with fewer than two y-axis
    words that parse to a number it raises the insufficient-data error,
    and otherwise it returns exactly one value per month word. *)
Theorem V1_detectBars_total
        (page : Page) (img : Raster) (months yAxisValues : list OcrWord) :
  image page = Some img -> context2d page = true ->
  ((List.length (filter parsable yAxisValues) < 2)%nat ->
   V1.detectBars page months yAxisValues = V1.Fails V1.InsufficientYAxisData)
  /\ ((2 <= List.length (filter parsable yAxisValues))%nat ->
      exists barValues,
        V1.detectBars page months yAxisValues = V1.Values barValues
        /\ List.length barValues = List.length months).
Proof.
  intros Hi Hc. unfold V1.detectBars. rewrite Hi, Hc. cbn [negb].
  rewrite V1_yValuesOf_length. split; intros H.
  - now rewrite (proj2 (Nat.ltb_lt _ _) H).
  - destruct (Nat.ltb_spec (List.length (filter parsable yAxisValues)) 2); [lia|].
    destruct (sortBy (fun a b => inject_Z (value a - value b))
                     (V1.yValuesOf yAxisValues)) as [|yMin rest] eqn:E.
    + exfalso. apply (f_equal (@List.length YValue)) in E.
      rewrite sortBy_length, V1_yValuesOf_length in E. cbn in E. lia.
    + eexists. split; [reflexivity|]. apply length_map.
Qed.

Lemma V1_detectBars_total_witness :
  exists barValues,
    V1.detectBars Sample.blankPage Sample.monthRow Sample.floorAxis
    = V1.Values barValues
    /\ List.length barValues = List.length Sample.monthRow.
Proof.
  apply (proj2 (@V1_detectBars_total Sample.blankPage
                  (mkRaster 1 1 [255; 255; 255; 255]%N)
                  Sample.monthRow Sample.floorAxis eq_refl eq_refl)).
  vm_compute. lia.
Defined.
